(** * Quaternion rotation algebra: a shallow embedding

    The Python sources [src/vector3.py], [src/quaternion.py],
    [demo_rotate.py] and [demo_slerp.py] are translated function by
    function, under two readings of Python's floats.

    - Exact arithmetic.  In [Vector3], [Quaternion] and the demo functions
      a float is a real number.  What raises in this reading is kept as an
      explicit error result: [a / b] raises [ZeroDivisionError] when [b] is
      zero, [math.sqrt a] raises [ValueError] when [a < 0], and
      [math.acos a] raises [ValueError] when [a] is outside [-1, 1].
      Rounding and the range of binary64 are outside this reading: a
      square that underflows to 0.0, a product that overflows to an
      infinity and the [OverflowError] of [**] have no counterpart here.
      The theorems over the reals are laws of exact arithmetic.

    - IEEE binary64.  In [Binary64] a float is a binary64 float and every
      operation rounds to nearest, as CPython's does.  [Vector3.length],
      [Vector3.is_zero] and [Vector3.normalize] are embedded there, with
      the underflow of the squares that decides when [normalize] raises. *)

From Stdlib Require Import Floats.
From Stdlib Require Import Reals Lra Psatz.
From Stdlib Require Import RNsatz.

Open Scope R_scope.

(** ** Results of Python computations that may raise *)

Inductive PyError : Type :=
| ZeroDivisionError
| ValueError.

Inductive result (A : Type) : Type :=
| Ok (a : A)
| Raise (e : PyError).

Arguments Ok {A} a.
Arguments Raise {A} e.

Definition bind {A B : Type} (m : result A) (k : A -> result B) : result B :=
  match m with
  | Ok a => k a
  | Raise e => Raise e
  end.

Declare Scope py_scope.
Delimit Scope py_scope with py.
Notation "x <- m ;; k" := (bind m (fun x => k))
  (at level 61, m at next level, right associativity) : py_scope.
Open Scope py_scope.

(** ** Float primitives *)

(** [a / b] on floats. *)
Definition float_div (a b : R) : result R :=
  if Req_dec_T b 0 then Raise ZeroDivisionError else Ok (a / b).

(** [a == b] on floats. *)
Definition float_eqb (a b : R) : bool :=
  if Req_dec_T a b then true else false.

(** [a < b] on floats. *)
Definition float_ltb (a b : R) : bool :=
  if Rlt_dec a b then true else false.

(** [a > b] on floats. *)
Definition float_gtb (a b : R) : bool :=
  if Rgt_dec a b then true else false.

(** [math.sqrt]. *)
Definition math_sqrt (a : R) : result R :=
  if Rlt_dec a 0 then Raise ValueError else Ok (sqrt a).

(** [math.acos]. *)
Definition math_acos (a : R) : result R :=
  if Rlt_dec a (-1) then Raise ValueError
  else if Rlt_dec 1 a then Raise ValueError
  else Ok (acos a).

(** [base ** exponent] for a positive float [base]: the only use in the
    sources with a float exponent is [norm ** exponent] in
    [Quaternion.power], reached when [norm >= 1e-10].  This is the exact
    power; the [OverflowError] Python raises when the result leaves the
    range of binary64 is outside the exact reading. *)
Definition float_pow (base exponent : R) : R := Rpower base exponent.

(** ** src/vector3.py *)

Module Vector3.

Record t : Type := new { x : R; y : R; z : R }.

Definition copy (self : t) : t := new (x self) (y self) (z self).

Definition add (self v : t) : t :=
  new (x self + x v) (y self + y v) (z self + z v).

Definition subtract (self v : t) : t :=
  new (x self - x v) (y self - y v) (z self - z v).

Definition scale (self : t) (s : R) : t :=
  new (s * x self) (s * y self) (s * z self).

Definition inverse (self : t) : t :=
  new (- x self) (- y self) (- z self).

Definition length (self : t) : result R :=
  math_sqrt (x self * x self + y self * y self + z self * z self).

Definition is_zero (self : t) : bool :=
  float_eqb (x self) 0 && float_eqb (y self) 0 && float_eqb (z self) 0.

Definition dot (self v : t) : R :=
  x self * x v + y self * y v + z self * z v.

Definition cross (self v : t) : t :=
  new (y self * z v - z self * y v)
      (z self * x v - x self * z v)
      (x self * y v - y self * x v).

Definition normalize (self : t) : result t :=
  length <- length self ;;
  nx <- float_div (x self) length ;;
  ny <- float_div (y self) length ;;
  nz <- float_div (z self) length ;;
  Ok (new nx ny nz).

End Vector3.

(** ** src/quaternion.py *)

Module Quaternion.

Record t : Type := new { w : R; x : R; y : R; z : R }.

Definition from_axis_angle (axis : Vector3.t) (angle : R) : result t :=
  length <- Vector3.length axis ;;
  axis <- (if negb (float_eqb length 1) then Vector3.normalize axis else Ok axis) ;;
  let half_angle := angle / 2 in
  Ok (new (cos half_angle)
          (Vector3.x axis * sin half_angle)
          (Vector3.y axis * sin half_angle)
          (Vector3.z axis * sin half_angle)).

Definition multiply (self other : t) : t :=
  new (w self * w other - x self * x other - y self * y other - z self * z other)
      (w self * x other + x self * w other + y self * z other - z self * y other)
      (w self * y other - x self * z other + y self * w other + z self * x other)
      (w self * z other + x self * y other - y self * x other + z self * w other).

Definition conjugate (self : t) : t :=
  new (w self) (- x self) (- y self) (- z self).

Definition inverse (self : t) : result t :=
  let norm_squared := w self ^ 2 + x self ^ 2 + y self ^ 2 + z self ^ 2 in
  iw <- float_div (w self) norm_squared ;;
  ix <- float_div (- x self) norm_squared ;;
  iy <- float_div (- y self) norm_squared ;;
  iz <- float_div (- z self) norm_squared ;;
  Ok (new iw ix iy iz).

Definition transform (self : t) (v : Vector3.t) : result Vector3.t :=
  let p := new 0 (Vector3.x v) (Vector3.y v) (Vector3.z v) in
  let sp := multiply self p in
  inv <- inverse self ;;
  let t := multiply sp inv in
  Ok (Vector3.new (x t) (y t) (z t)).

Definition copy (self : t) : t := new (w self) (x self) (y self) (z self).

Definition scale (self : t) (s : R) : t :=
  new (s * w self) (s * x self) (s * y self) (s * z self).

Definition power (self : t) (exponent : R) : result t :=
  norm <- math_sqrt (w self ^ 2 + x self ^ 2 + y self ^ 2 + z self ^ 2) ;;
  if float_ltb norm 1e-10 then Ok (new 0 0 0 0)
  else
    let norm_pow := float_pow norm exponent in
    cosine <- float_div (w self) norm ;;
    theta <- math_acos cosine ;;
    let new_w := norm_pow * cos (exponent * theta) in
    vector_magnitude <- math_sqrt (x self ^ 2 + y self ^ 2 + z self ^ 2) ;;
    if float_ltb vector_magnitude 1e-10 then Ok (new new_w 0 0 0)
    else
      factor <- float_div (norm_pow * sin (exponent * theta)) vector_magnitude ;;
      let new_x := x self * factor in
      let new_y := y self * factor in
      let new_z := z self * factor in
      Ok (new new_w new_x new_y new_z).

End Quaternion.

(** ** demo_rotate.py *)

Definition get_rotation_axis_and_angle (q : Quaternion.t)
  : result (Vector3.t * R) :=
  if float_gtb (Rabs (Quaternion.w q)) 0.9999 then Ok (Vector3.new 0 0 1, 0)
  else
    half <- math_acos (Quaternion.w q) ;;
    let angle := 2 * half in
    sin_half_angle <- math_sqrt (1 - Quaternion.w q * Quaternion.w q) ;;
    ax <- float_div (Quaternion.x q) sin_half_angle ;;
    ay <- float_div (Quaternion.y q) sin_half_angle ;;
    az <- float_div (Quaternion.z q) sin_half_angle ;;
    Ok (Vector3.new ax ay az, angle).

(** ** demo_slerp.py *)

Definition slerp (q1 q2 : Quaternion.t) (t : R) (shortestPath : bool)
  : result Quaternion.t :=
  let q2 :=
    if shortestPath then
      let dot_product :=
        Quaternion.w q1 * Quaternion.w q2 + Quaternion.x q1 * Quaternion.x q2
        + Quaternion.y q1 * Quaternion.y q2 + Quaternion.z q1 * Quaternion.z q2 in
      if float_ltb dot_product 0
      then Quaternion.new (- Quaternion.w q2) (- Quaternion.x q2)
                          (- Quaternion.y q2) (- Quaternion.z q2)
      else q2
    else q2 in
  inv <- Quaternion.inverse q1 ;;
  let rotation := Quaternion.multiply q2 inv in
  fraction_rotation <- Quaternion.power rotation t ;;
  Ok (Quaternion.multiply fraction_rotation q1).

(** ** Vocabulary of the specification

    The quantities the properties below speak about.  [norm_squared] is the
    local of [Quaternion.inverse]; [norm] and [vector_magnitude] are the
    locals of [Quaternion.power], here in exact arithmetic. *)

Definition norm_squared (q : Quaternion.t) : R :=
  Quaternion.w q ^ 2 + Quaternion.x q ^ 2 + Quaternion.y q ^ 2 + Quaternion.z q ^ 2.

Definition norm (q : Quaternion.t) : R := sqrt (norm_squared q).

Definition vector_magnitude (q : Quaternion.t) : R :=
  sqrt (Quaternion.x q ^ 2 + Quaternion.y q ^ 2 + Quaternion.z q ^ 2).

Definition is_unit (q : Quaternion.t) : Prop := norm q = 1.

Definition identity : Quaternion.t := Quaternion.new 1 0 0 0.

Definition zero_quaternion : Quaternion.t := Quaternion.new 0 0 0 0.

Definition qi : Quaternion.t := Quaternion.new 0 1 0 0.
Definition qj : Quaternion.t := Quaternion.new 0 0 1 0.
Definition qk : Quaternion.t := Quaternion.new 0 0 0 1.

(** Component-wise negation, as written inline in [slerp]. *)
Definition negate (q : Quaternion.t) : Quaternion.t :=
  Quaternion.new (- Quaternion.w q) (- Quaternion.x q)
                 (- Quaternion.y q) (- Quaternion.z q).

(** The four-dimensional dot product computed inline in [slerp]. *)
Definition dot (q1 q2 : Quaternion.t) : R :=
  Quaternion.w q1 * Quaternion.w q2 + Quaternion.x q1 * Quaternion.x q2
  + Quaternion.y q1 * Quaternion.y q2 + Quaternion.z q1 * Quaternion.z q2.

(** The end point [slerp] interpolates towards when [shortestPath] is
    true: [q2], or its negation when the dot product is negative. *)
Definition slerp_target (q1 q2 : Quaternion.t) : Quaternion.t :=
  if float_ltb (dot q1 q2) 0 then negate q2 else q2.

(** The embedding [(0, v)] of a vector and the vector part of a quaternion,
    as [Quaternion.transform] builds and reads them. *)
Definition pure (v : Vector3.t) : Quaternion.t :=
  Quaternion.new 0 (Vector3.x v) (Vector3.y v) (Vector3.z v).

Definition vector_part (q : Quaternion.t) : Vector3.t :=
  Vector3.new (Quaternion.x q) (Quaternion.y q) (Quaternion.z q).

(** The Euclidean length [Vector3.length] computes when it returns. *)
Definition vlen (v : Vector3.t) : R :=
  sqrt (Vector3.x v * Vector3.x v + Vector3.y v * Vector3.y v
        + Vector3.z v * Vector3.z v).

(** The angle [theta] and the factors [power] computes past its first guard. *)
Definition power_theta (q : Quaternion.t) : R := acos (Quaternion.w q / norm q).

Definition power_new_w (q : Quaternion.t) (exponent : R) : R :=
  Rpower (norm q) exponent * cos (exponent * power_theta q).

Definition power_factor (q : Quaternion.t) (exponent : R) : R :=
  Rpower (norm q) exponent * sin (exponent * power_theta q) / vector_magnitude q.

(** ** demo_rotate.py: the trackball helpers *)

(** [a <= b] on floats. *)
Definition float_leb (a b : R) : bool :=
  if Rle_dec a b then true else false.

Definition project_on_sphere (touch_x touch_y width height r : R)
  : result Vector3.t :=
  x <- float_div (touch_x - width / 2) height ;;
  y <- float_div (- (touch_y - height / 2)) height ;;
  let distance_sq := x ^ 2 + y ^ 2 in
  z <- (if float_leb distance_sq (r * r / 2)
        then math_sqrt (r * r - distance_sq)
        else (root <- math_sqrt distance_sq ;; float_div (r * r / 2) root)) ;;
  Vector3.normalize (Vector3.new x y z).

(** The default radius of the virtual trackball, [r=0.5]. *)
Definition project_on_sphere_default (touch_x touch_y width height : R)
  : result Vector3.t :=
  project_on_sphere touch_x touch_y width height 0.5.

Definition calculate_rotation_between_points (p1 p2 : Vector3.t)
  : result Quaternion.t :=
  let q1 := Quaternion.new 0 (Vector3.x p1) (Vector3.y p1) (Vector3.z p1) in
  let q2 := Quaternion.new 0 (Vector3.x p2) (Vector3.y p2) (Vector3.z p2) in
  let rotation := Quaternion.multiply q2 (Quaternion.conjugate q1) in
  Quaternion.power rotation 0.5.

(** ** Further vocabulary *)

Definition zero_vector : Vector3.t := Vector3.new 0 0 0.

(** The components [Vector3.normalize] returns on a non-zero vector. *)
Definition unit_direction (v : Vector3.t) : Vector3.t :=
  Vector3.new (Vector3.x v / vlen v) (Vector3.y v / vlen v) (Vector3.z v / vlen v).

(** Rodrigues' rotation of [v] about the unit axis [n] by [angle], written
    with the operations of [Vector3]:
    v cos(angle) + (n x v) sin(angle) + n (n . v) (1 - cos(angle)). *)
Definition rodrigues (n v : Vector3.t) (angle : R) : Vector3.t :=
  Vector3.add
    (Vector3.add (Vector3.scale v (cos angle))
                 (Vector3.scale (Vector3.cross n v) (sin angle)))
    (Vector3.scale n (Vector3.dot n v * (1 - cos angle))).

(** What [Quaternion.inverse] returns on a quaternion of non-zero squared
    norm, and what [Quaternion.transform] then reads off the product. *)
Definition inverse_value (q : Quaternion.t) : Quaternion.t :=
  Quaternion.new (Quaternion.w q / norm_squared q)
                 (- Quaternion.x q / norm_squared q)
                 (- Quaternion.y q / norm_squared q)
                 (- Quaternion.z q / norm_squared q).

Definition transform_value (q : Quaternion.t) (v : Vector3.t) : Vector3.t :=
  vector_part (Quaternion.multiply (Quaternion.multiply q (pure v)) (inverse_value q)).

(** ** src/vector3.py on binary64 floats

    [length], [is_zero] and [normalize] of [Vector3] with Python's float
    arithmetic itself: [PrimFloat] is IEEE binary64 with rounding to
    nearest, ties to even.  A method is a function of the state of [self]
    that returns its result together with the state of [self] after the
    call, so that a method that assigns to [self] (as [set] does) differs
    from one that does not. *)

Module Binary64.

(** [a / b]: [ZeroDivisionError] when [b == 0.0], which holds of both
    zeros; a NaN divisor divides. *)
Definition float_div (a b : float) : result float :=
  if PrimFloat.eqb b 0%float then Raise ZeroDivisionError
  else Ok (PrimFloat.div a b).

(** [math.sqrt]: [ValueError] below zero; -0.0 and NaN go through. *)
Definition math_sqrt (a : float) : result float :=
  if PrimFloat.ltb a 0%float then Raise ValueError
  else Ok (PrimFloat.sqrt a).

Module Vector3.

Record t : Type := new { x : float; y : float; z : float }.

(** [set]: no result, [self] takes the components of [v]. *)
Definition set (self v : t) : unit * t :=
  (tt, new (x v) (y v) (z v)).

Definition length (self : t) : result float * t :=
  (math_sqrt (PrimFloat.add
                (PrimFloat.add (PrimFloat.mul (x self) (x self))
                               (PrimFloat.mul (y self) (y self)))
                (PrimFloat.mul (z self) (z self))),
   self).

Definition is_zero (self : t) : bool * t :=
  ((PrimFloat.eqb (x self) 0%float && PrimFloat.eqb (y self) 0%float
    && PrimFloat.eqb (z self) 0%float)%bool,
   self).

Definition normalize (self : t) : result t * t :=
  let (length, self) := length self in
  (length <- length ;;
   nx <- float_div (x self) length ;;
   ny <- float_div (y self) length ;;
   nz <- float_div (z self) length ;;
   Ok (new nx ny nz),
   self).

End Vector3.

End Binary64.

(** ** The float primitives on their domains *)

Lemma float_div_ok (a b : R) : b <> 0 -> float_div a b = Ok (a / b).
Proof.
  intros Hb. unfold float_div. destruct (Req_dec_T b 0) as [E | _]; [contradiction | reflexivity].
Qed.

Lemma float_div_zero (a : R) : float_div a 0 = Raise ZeroDivisionError.
Proof.
  unfold float_div. destruct (Req_dec_T 0 0) as [_ | N]; [reflexivity | now elim N].
Qed.

Lemma math_sqrt_ok (a : R) : 0 <= a -> math_sqrt a = Ok (sqrt a).
Proof.
  intros Ha. unfold math_sqrt. destruct (Rlt_dec a 0) as [L | _]; [lra | reflexivity].
Qed.

Lemma math_acos_ok (a : R) : -1 <= a <= 1 -> math_acos a = Ok (acos a).
Proof.
  intros [Hl Hu]. unfold math_acos.
  destruct (Rlt_dec a (-1)) as [L | _]; [lra |].
  destruct (Rlt_dec 1 a) as [L | _]; [lra | reflexivity].
Qed.

Lemma float_ltb_true (a b : R) : a < b -> float_ltb a b = true.
Proof.
  intros H. unfold float_ltb. destruct (Rlt_dec a b); [reflexivity | contradiction].
Qed.

Lemma float_ltb_false (a b : R) : b <= a -> float_ltb a b = false.
Proof.
  intros H. unfold float_ltb. destruct (Rlt_dec a b); [lra | reflexivity].
Qed.

Lemma float_gtb_true (a b : R) : a > b -> float_gtb a b = true.
Proof.
  intros H. unfold float_gtb. destruct (Rgt_dec a b); [reflexivity | contradiction].
Qed.

Lemma float_gtb_false (a b : R) : a <= b -> float_gtb a b = false.
Proof.
  intros H. unfold float_gtb. destruct (Rgt_dec a b); [lra | reflexivity].
Qed.

Lemma float_eqb_true (a b : R) : a = b -> float_eqb a b = true.
Proof.
  intros H. unfold float_eqb. destruct (Req_dec_T a b); [reflexivity | contradiction].
Qed.

Lemma float_eqb_false (a b : R) : a <> b -> float_eqb a b = false.
Proof.
  intros H. unfold float_eqb. destruct (Req_dec_T a b); [contradiction | reflexivity].
Qed.

Lemma float_eqb_eq (a b : R) : float_eqb a b = true <-> a = b.
Proof.
  unfold float_eqb. destruct (Req_dec_T a b); split; intros H; congruence.
Qed.

(** ** Sums of squares *)

Lemma sum3_sq_nonneg (a b c : R) : 0 <= a * a + b * b + c * c.
Proof. nra. Qed.

Lemma sum3_pow_nonneg (a b c : R) : 0 <= a ^ 2 + b ^ 2 + c ^ 2.
Proof. nra. Qed.

Lemma norm_squared_nonneg (q : Quaternion.t) : 0 <= norm_squared q.
Proof. unfold norm_squared. nra. Qed.

Lemma sum3_sq_zero (a b c : R) :
  a * a + b * b + c * c = 0 -> a = 0 /\ b = 0 /\ c = 0.
Proof. intros H. repeat split; nra. Qed.

Lemma norm_sqr (q : Quaternion.t) : norm q * norm q = norm_squared q.
Proof. unfold norm. apply sqrt_sqrt, norm_squared_nonneg. Qed.

Lemma norm_nonneg (q : Quaternion.t) : 0 <= norm q.
Proof. unfold norm. apply sqrt_pos. Qed.

Lemma vector_magnitude_sqr (q : Quaternion.t) :
  vector_magnitude q * vector_magnitude q
  = Quaternion.x q ^ 2 + Quaternion.y q ^ 2 + Quaternion.z q ^ 2.
Proof. unfold vector_magnitude. apply sqrt_sqrt, sum3_pow_nonneg. Qed.

Lemma vector_magnitude_nonneg (q : Quaternion.t) : 0 <= vector_magnitude q.
Proof. unfold vector_magnitude. apply sqrt_pos. Qed.

Lemma is_unit_norm_squared (q : Quaternion.t) : is_unit q <-> norm_squared q = 1.
Proof.
  unfold is_unit. split; intros H.
  - rewrite <- norm_sqr, H. ring.
  - unfold norm. rewrite H. apply sqrt_1.
Qed.

(** ** Vector3 *)

Lemma length_ok (v : Vector3.t) : Vector3.length v = Ok (vlen v).
Proof. unfold Vector3.length, vlen. apply math_sqrt_ok, sum3_sq_nonneg. Qed.

Lemma vlen_zero_iff (v : Vector3.t) : vlen v = 0 <-> Vector3.is_zero v = true.
Proof.
  unfold vlen, Vector3.is_zero. destruct v as [a b c]; simpl. split.
  - intros H. apply sqrt_eq_0 in H; [| apply sum3_sq_nonneg].
    apply sum3_sq_zero in H. destruct H as (-> & -> & ->).
    rewrite float_eqb_true by reflexivity. reflexivity.
  - intros H. apply andb_prop in H. destruct H as [H Hc].
    apply andb_prop in H. destruct H as [Ha Hb].
    apply float_eqb_eq in Ha, Hb, Hc. subst.
    replace (0 * 0 + 0 * 0 + 0 * 0) with 0 by ring. apply sqrt_0.
Qed.

Lemma is_zero_components (v : Vector3.t) :
  Vector3.is_zero v = true
  <-> Vector3.x v = 0 /\ Vector3.y v = 0 /\ Vector3.z v = 0.
Proof.
  unfold Vector3.is_zero. split.
  - intros H. apply andb_prop in H. destruct H as [H Hc].
    apply andb_prop in H. destruct H as [Ha Hb].
    apply float_eqb_eq in Ha, Hb, Hc. auto.
  - intros (Ha & Hb & Hc). rewrite !float_eqb_true by assumption. reflexivity.
Qed.

Lemma normalize_nonzero (v : Vector3.t) :
  vlen v <> 0 ->
  Vector3.normalize v
  = Ok (Vector3.new (Vector3.x v / vlen v) (Vector3.y v / vlen v) (Vector3.z v / vlen v)).
Proof.
  intros Hl. unfold Vector3.normalize. rewrite length_ok. simpl.
  rewrite !float_div_ok by assumption. reflexivity.
Qed.

Lemma normalize_zero (v : Vector3.t) :
  vlen v = 0 -> Vector3.normalize v = Raise ZeroDivisionError.
Proof.
  intros Hl. unfold Vector3.normalize. rewrite length_ok. simpl.
  rewrite Hl, float_div_zero. reflexivity.
Qed.

(** ** Vector3.normalize on binary64 floats *)

Lemma binary64_eqb_zero (a : float) :
  PrimFloat.eqb a 0%float = true <-> a = 0%float \/ a = (-0)%float.
Proof.
  split.
  - intros H. rewrite eqb_spec in H. rewrite <- (SF2Prim_Prim2SF a).
    destruct (Prim2SF a) as [sg | sg | | sg m e]; simpl in H.
    + destruct sg; [right | left]; reflexivity.
    + destruct sg; discriminate H.
    + discriminate H.
    + destruct sg; discriminate H.
  - intros [-> | ->]; reflexivity.
Qed.

Lemma binary64_is_zero_components (v : Binary64.Vector3.t) :
  fst (Binary64.Vector3.is_zero v) = true
  <-> (Binary64.Vector3.x v = 0%float \/ Binary64.Vector3.x v = (-0)%float)
      /\ (Binary64.Vector3.y v = 0%float \/ Binary64.Vector3.y v = (-0)%float)
      /\ (Binary64.Vector3.z v = 0%float \/ Binary64.Vector3.z v = (-0)%float).
Proof.
  unfold Binary64.Vector3.is_zero; simpl.
  rewrite !Bool.andb_true_iff, !binary64_eqb_zero. tauto.
Qed.

(** C9 as stated fails on the code.  The vector (1e-200, 0, 0) is not a
    zero vector ([is_zero] is false), but the square of 1e-200 underflows
    to 0.0, so [length] returns 0.0 and [normalize] raises
    [ZeroDivisionError] instead of returning the scaled vector. *)
Lemma normalize_zero_guard_counterexample :
  fst (Binary64.Vector3.is_zero (Binary64.Vector3.new 1e-200 0 0)) = false
  /\ fst (Binary64.Vector3.length (Binary64.Vector3.new 1e-200 0 0)) = Ok 0%float
  /\ fst (Binary64.Vector3.normalize (Binary64.Vector3.new 1e-200 0 0))
     = Raise ZeroDivisionError.
Proof. repeat split. Qed.

(** C9, amended: [Vector3.normalize] divides each component by [length()]
    with no zero guard.  Whenever [length()] is 0.0 it raises
    [ZeroDivisionError]: on the zero vectors (those for which [is_zero] is
    true, every component a zero) and on any other vector whose length
    evaluates to 0.0.  Whenever [length()] is not 0.0 it returns a new
    vector, the components of the input divided by [length()].  In every
    case the input is left as it was. *)
Theorem normalize_divides_by_length (v : Binary64.Vector3.t) :
  snd (Binary64.Vector3.normalize v) = v
  /\ (fst (Binary64.Vector3.is_zero v) = true
      <-> (Binary64.Vector3.x v = 0%float \/ Binary64.Vector3.x v = (-0)%float)
          /\ (Binary64.Vector3.y v = 0%float \/ Binary64.Vector3.y v = (-0)%float)
          /\ (Binary64.Vector3.z v = 0%float \/ Binary64.Vector3.z v = (-0)%float))
  /\ (fst (Binary64.Vector3.is_zero v) = true ->
      fst (Binary64.Vector3.normalize v) = Raise ZeroDivisionError)
  /\ (forall len : float,
         fst (Binary64.Vector3.length v) = Ok len ->
         PrimFloat.eqb len 0%float = true ->
         fst (Binary64.Vector3.normalize v) = Raise ZeroDivisionError)
  /\ (forall len : float,
         fst (Binary64.Vector3.length v) = Ok len ->
         PrimFloat.eqb len 0%float = false ->
         fst (Binary64.Vector3.normalize v)
         = Ok (Binary64.Vector3.new
                 (PrimFloat.div (Binary64.Vector3.x v) len)
                 (PrimFloat.div (Binary64.Vector3.y v) len)
                 (PrimFloat.div (Binary64.Vector3.z v) len))).
Proof.
  split; [reflexivity |].
  split; [apply binary64_is_zero_components |].
  split.
  - intros Hz. apply binary64_is_zero_components in Hz.
    destruct v as [a b c]. simpl in Hz.
    destruct Hz as ([-> | ->] & [-> | ->] & [-> | ->]); reflexivity.
  - split; intros len Hlen Hz;
      unfold Binary64.Vector3.normalize, Binary64.Vector3.length in *;
      simpl in Hlen |- *; rewrite Hlen; simpl;
      unfold Binary64.float_div; rewrite Hz; reflexivity.
Qed.

(** C9, at the zero vector, which raises, and at (3, 0, 4), of length 5,
    which becomes (0.6, 0, 0.8). *)
Lemma normalize_divides_by_length_witness :
  fst (Binary64.Vector3.normalize (Binary64.Vector3.new 0 0 0))
  = Raise ZeroDivisionError
  /\ fst (Binary64.Vector3.normalize (Binary64.Vector3.new 3 0 4))
     = Ok (Binary64.Vector3.new 0.6 0 0.8)
  /\ snd (Binary64.Vector3.normalize (Binary64.Vector3.new 3 0 4))
     = Binary64.Vector3.new 3 0 4.
Proof.
  split; [| split].
  - apply (proj1 (proj2 (proj2 (normalize_divides_by_length (Binary64.Vector3.new 0 0 0))))).
    reflexivity.
  - apply (proj2 (proj2 (proj2 (proj2
             (normalize_divides_by_length (Binary64.Vector3.new 3 0 4))))) 5%float);
      reflexivity.
  - apply (proj1 (normalize_divides_by_length (Binary64.Vector3.new 3 0 4))).
Defined.

(** [set] does assign to [self]: after [a.set(v)] the state of [a] is [v]. *)
Example binary64_set_overwrites :
  snd (Binary64.Vector3.set (Binary64.Vector3.new 3 0 4) (Binary64.Vector3.new 1 2 3))
  = Binary64.Vector3.new 1 2 3.
Proof. reflexivity. Qed.

(** ** Quaternion algebra *)

Lemma quaternion_eq (a b : Quaternion.t) :
  Quaternion.w a = Quaternion.w b -> Quaternion.x a = Quaternion.x b ->
  Quaternion.y a = Quaternion.y b -> Quaternion.z a = Quaternion.z b -> a = b.
Proof. destruct a, b; simpl; intros; subst; reflexivity. Qed.

Ltac quaternion_ring :=
  apply quaternion_eq; simpl; try ring.

Ltac quaternion_field :=
  apply quaternion_eq; simpl; try (field; assumption).

(** C8: [from_axis_angle] compares [axis.length()] with 1 exactly.  When
    the length is exactly 1 the axis is used as it is; when it is anything
    else the axis goes through [normalize] first (whose failure on the zero
    axis is propagated).  Either way the quaternion built is
    (cos(angle/2), a.x sin(angle/2), a.y sin(angle/2), a.z sin(angle/2)). *)
Theorem from_axis_angle_exact_guard (axis : Vector3.t) (angle : R) :
  exists len, Vector3.length axis = Ok len
    /\ (len = 1 ->
        Quaternion.from_axis_angle axis angle
        = Ok (Quaternion.new (cos (angle / 2))
                (Vector3.x axis * sin (angle / 2))
                (Vector3.y axis * sin (angle / 2))
                (Vector3.z axis * sin (angle / 2))))
    /\ (len <> 1 ->
        Quaternion.from_axis_angle axis angle
        = (a <- Vector3.normalize axis ;;
           Ok (Quaternion.new (cos (angle / 2))
                 (Vector3.x a * sin (angle / 2))
                 (Vector3.y a * sin (angle / 2))
                 (Vector3.z a * sin (angle / 2))))).
Proof.
  exists (vlen axis). split; [apply length_ok |].
  unfold Quaternion.from_axis_angle. rewrite length_ok. simpl. split; intros H.
  - rewrite float_eqb_true by exact H. reflexivity.
  - rewrite float_eqb_false by exact H. reflexivity.
Qed.

Lemma vlen_unit_z : vlen (Vector3.new 0 0 1) = 1.
Proof.
  unfold vlen; simpl. replace (0 * 0 + 0 * 0 + 1 * 1) with 1 by ring. apply sqrt_1.
Qed.

Lemma vlen_0_0_2 : vlen (Vector3.new 0 0 2) = 2.
Proof.
  unfold vlen; simpl. replace (0 * 0 + 0 * 0 + 2 * 2) with (2 * 2) by ring.
  apply sqrt_square. lra.
Qed.

(** C8, at concrete inputs: the unit axis (0,0,1) is taken as it is, the
    axis (0,0,2) is normalized to (0,0,1) first. *)
Lemma from_axis_angle_exact_guard_witness :
  Quaternion.from_axis_angle (Vector3.new 0 0 1) PI
  = Ok (Quaternion.new (cos (PI / 2)) (0 * sin (PI / 2)) (0 * sin (PI / 2)) (1 * sin (PI / 2)))
  /\ Quaternion.from_axis_angle (Vector3.new 0 0 2) PI
     = (a <- Vector3.normalize (Vector3.new 0 0 2) ;;
        Ok (Quaternion.new (cos (PI / 2)) (Vector3.x a * sin (PI / 2))
              (Vector3.y a * sin (PI / 2)) (Vector3.z a * sin (PI / 2)))).
Proof.
  split.
  - destruct (from_axis_angle_exact_guard (Vector3.new 0 0 1) PI) as (len & Hlen & H1 & _).
    apply H1. rewrite length_ok in Hlen. injection Hlen as <-. apply vlen_unit_z.
  - destruct (from_axis_angle_exact_guard (Vector3.new 0 0 2) PI) as (len & Hlen & _ & H2).
    apply H2. rewrite length_ok in Hlen. injection Hlen as <-. rewrite vlen_0_0_2. lra.
Defined.

(** C6: [multiply] is the Hamilton product on the basis quaternions
    i = (0,1,0,0), j = (0,0,1,0), k = (0,0,0,1): the squares are -1, the
    cyclic products are i j = k, j k = i, k i = j, and the reversed
    products are their negations. *)
Theorem multiply_hamilton_table :
  Quaternion.multiply qi qi = Quaternion.new (-1) 0 0 0
  /\ Quaternion.multiply qj qj = Quaternion.new (-1) 0 0 0
  /\ Quaternion.multiply qk qk = Quaternion.new (-1) 0 0 0
  /\ Quaternion.multiply qi qj = qk
  /\ Quaternion.multiply qj qk = qi
  /\ Quaternion.multiply qk qi = qj
  /\ Quaternion.multiply qj qi = negate qk
  /\ Quaternion.multiply qk qj = negate qi
  /\ Quaternion.multiply qi qk = negate qj.
Proof.
  unfold qi, qj, qk, negate, Quaternion.multiply; simpl.
  repeat split; f_equal; ring.
Qed.

Lemma inverse_ok (q : Quaternion.t) :
  norm_squared q <> 0 ->
  Quaternion.inverse q
  = Ok (Quaternion.new (Quaternion.w q / norm_squared q)
          (- Quaternion.x q / norm_squared q)
          (- Quaternion.y q / norm_squared q)
          (- Quaternion.z q / norm_squared q)).
Proof.
  intros H. unfold Quaternion.inverse.
  fold (norm_squared q). cbv zeta.
  rewrite !float_div_ok by exact H. reflexivity.
Qed.

Lemma inverse_zero_norm (q : Quaternion.t) :
  norm_squared q = 0 -> Quaternion.inverse q = Raise ZeroDivisionError.
Proof.
  intros H. unfold Quaternion.inverse.
  fold (norm_squared q). cbv zeta. rewrite H, float_div_zero. reflexivity.
Qed.

(** C5: for a quaternion of non-zero squared norm, [inverse] returns the
    conjugate scaled by 1/(w²+x²+y²+z²), and the product of the quaternion
    with that inverse is exactly the identity (1,0,0,0). *)
Theorem inverse_is_scaled_conjugate (q : Quaternion.t) :
  norm_squared q <> 0 ->
  exists inv, Quaternion.inverse q = Ok inv
    /\ inv = Quaternion.scale (Quaternion.conjugate q) (1 / norm_squared q)
    /\ Quaternion.multiply q inv = identity.
Proof.
  intros H. eexists. split; [apply inverse_ok, H |]. split.
  - quaternion_field.
  - unfold identity. apply quaternion_eq; simpl; unfold norm_squared in *; field; exact H.
Qed.

(** C5, at q = (1,2,3,4), whose squared norm is 30. *)
Lemma inverse_is_scaled_conjugate_witness :
  exists inv, Quaternion.inverse (Quaternion.new 1 2 3 4) = Ok inv
    /\ inv = Quaternion.scale (Quaternion.conjugate (Quaternion.new 1 2 3 4))
               (1 / norm_squared (Quaternion.new 1 2 3 4))
    /\ Quaternion.multiply (Quaternion.new 1 2 3 4) inv = identity.
Proof.
  apply (inverse_is_scaled_conjugate (Quaternion.new 1 2 3 4)).
  unfold norm_squared; simpl. lra.
Defined.

Lemma norm_squared_multiply (p q : Quaternion.t) :
  norm_squared (Quaternion.multiply p q) = norm_squared p * norm_squared q.
Proof. unfold norm_squared, Quaternion.multiply; simpl. ring. Qed.

(** C10: the norm is multiplicative over [multiply], so the product of two
    unit quaternions is a unit quaternion. *)
Theorem norm_multiply (p q : Quaternion.t) :
  norm (Quaternion.multiply p q) = norm p * norm q
  /\ (is_unit p -> is_unit q -> is_unit (Quaternion.multiply p q)).
Proof.
  assert (E : norm (Quaternion.multiply p q) = norm p * norm q).
  { unfold norm. rewrite norm_squared_multiply.
    apply sqrt_mult; apply norm_squared_nonneg. }
  split; [exact E |].
  unfold is_unit. intros Hp Hq. rewrite E, Hp, Hq. ring.
Qed.

Lemma is_unit_qi : is_unit qi.
Proof.
  apply is_unit_norm_squared. unfold norm_squared, qi; simpl. ring.
Qed.

Lemma is_unit_qj : is_unit qj.
Proof.
  apply is_unit_norm_squared. unfold norm_squared, qj; simpl. ring.
Qed.

(** C10, at the unit quaternions i and j. *)
Lemma norm_multiply_witness : is_unit (Quaternion.multiply qi qj).
Proof.
  apply (proj2 (norm_multiply qi qj)); [apply is_unit_qi | apply is_unit_qj].
Defined.

(** ** Quaternion.power *)

Lemma cosine_in_range (q : Quaternion.t) :
  0 < norm q -> -1 <= Quaternion.w q / norm q <= 1.
Proof.
  intros Hn.
  pose proof (norm_sqr q) as Hs. unfold norm_squared in Hs.
  set (n := norm q) in *. set (c := Quaternion.w q / n).
  assert (Hw : Quaternion.w q = c * n) by (unfold c; field; lra).
  rewrite Hw in Hs.
  assert (Hc : c * c <= 1).
  { apply Rmult_le_reg_r with (n * n); [nra |].
    pose proof (sum3_pow_nonneg (Quaternion.x q) (Quaternion.y q) (Quaternion.z q)).
    nra. }
  split; nra.
Qed.

Lemma power_zero_branch (q : Quaternion.t) (exponent : R) :
  norm q < 1e-10 -> Quaternion.power q exponent = Ok zero_quaternion.
Proof.
  intros Hn. unfold Quaternion.power.
  fold (norm_squared q). rewrite math_sqrt_ok by apply norm_squared_nonneg.
  fold (norm q). cbn [bind]. rewrite float_ltb_true by exact Hn. reflexivity.
Qed.

Lemma power_past_guard (q : Quaternion.t) (exponent : R) :
  1e-10 <= norm q ->
  Quaternion.power q exponent
  = if float_ltb (vector_magnitude q) 1e-10
    then Ok (Quaternion.new (power_new_w q exponent) 0 0 0)
    else Ok (Quaternion.new (power_new_w q exponent)
               (Quaternion.x q * power_factor q exponent)
               (Quaternion.y q * power_factor q exponent)
               (Quaternion.z q * power_factor q exponent)).
Proof.
  intros Hn. unfold Quaternion.power.
  fold (norm_squared q). rewrite math_sqrt_ok by apply norm_squared_nonneg.
  fold (norm q). cbn [bind]. rewrite float_ltb_false by exact Hn.
  rewrite float_div_ok by lra. cbn [bind].
  rewrite math_acos_ok by (apply cosine_in_range; lra). cbn [bind].
  rewrite math_sqrt_ok by apply sum3_pow_nonneg.
  fold (vector_magnitude q). cbn [bind].
  destruct (float_ltb (vector_magnitude q) 1e-10) eqn:Hv; [reflexivity |].
  assert (Hm : vector_magnitude q <> 0).
  { intros E. rewrite E in Hv. rewrite float_ltb_true in Hv by lra. discriminate Hv. }
  rewrite float_div_ok by exact Hm. reflexivity.
Qed.


Lemma norm_zero_quaternion : norm zero_quaternion = 0.
Proof.
  unfold norm, norm_squared, zero_quaternion; simpl.
  replace (0 * (0 * 1) + 0 * (0 * 1) + 0 * (0 * 1) + 0 * (0 * 1)) with 0 by ring.
  apply sqrt_0.
Qed.

Lemma norm_identity : norm identity = 1.
Proof.
  apply is_unit_norm_squared. unfold norm_squared, identity; simpl. ring.
Qed.

Lemma vector_magnitude_identity : vector_magnitude identity = 0.
Proof.
  unfold vector_magnitude, identity; simpl.
  replace (0 * (0 * 1) + 0 * (0 * 1) + 0 * (0 * 1)) with 0 by ring.
  apply sqrt_0.
Qed.

Lemma vector_magnitude_qi : vector_magnitude qi = 1.
Proof.
  unfold vector_magnitude, qi; simpl.
  replace (1 * (1 * 1) + 0 * (0 * 1) + 0 * (0 * 1)) with 1 by ring.
  apply sqrt_1.
Qed.


Lemma cos_power_theta (q : Quaternion.t) :
  0 < norm q -> cos (power_theta q) = Quaternion.w q / norm q.
Proof.
  intros Hn. unfold power_theta. apply cos_acos, cosine_in_range, Hn.
Qed.

Lemma sin_power_theta (q : Quaternion.t) :
  0 < norm q -> sin (power_theta q) = vector_magnitude q / norm q.
Proof.
  intros Hn. unfold power_theta.
  rewrite sin_acos by (apply cosine_in_range, Hn).
  pose proof (norm_sqr q) as Hs. unfold norm_squared in Hs.
  pose proof (vector_magnitude_sqr q) as Hv.
  pose proof (vector_magnitude_nonneg q) as Hv0.
  assert (Hd : 0 <= vector_magnitude q / norm q).
  { apply Rmult_le_pos; [exact Hv0 |]. left. apply Rinv_0_lt_compat, Hn. }
  assert (Hq : vector_magnitude q / norm q * (vector_magnitude q / norm q)
               = 1 - (Quaternion.w q / norm q)²).
  { unfold Rsqr.
    replace (vector_magnitude q / norm q * (vector_magnitude q / norm q))
      with (vector_magnitude q * vector_magnitude q / (norm q * norm q))
      by (field; lra).
    replace (1 - Quaternion.w q / norm q * (Quaternion.w q / norm q))
      with ((norm q * norm q - Quaternion.w q * Quaternion.w q) / (norm q * norm q))
      by (field; lra).
    f_equal. rewrite Hv, Hs. ring. }
  apply sqrt_lem_1; [rewrite <- Hq; nra | exact Hd | exact Hq].
Qed.

Lemma vector_magnitude_zero (q : Quaternion.t) :
  vector_magnitude q = 0 ->
  Quaternion.x q = 0 /\ Quaternion.y q = 0 /\ Quaternion.z q = 0.
Proof.
  intros H. pose proof (vector_magnitude_sqr q) as Hv. rewrite H in Hv.
  repeat split; nra.
Qed.

Lemma Rpower_2 (n : R) : 0 < n -> Rpower n 2 = n * n.
Proof.
  intros Hn. replace 2 with (INR 2) by (simpl; ring).
  rewrite Rpower_pow by exact Hn. ring.
Qed.

Lemma power_0 (q : Quaternion.t) :
  1e-10 <= norm q -> Quaternion.power q 0 = Ok identity.
Proof.
  intros Hn. rewrite power_past_guard by exact Hn.
  assert (Hw : power_new_w q 0 = 1).
  { unfold power_new_w. rewrite Rpower_O by lra.
    rewrite Rmult_0_l, cos_0. ring. }
  assert (Hf : power_factor q 0 = 0).
  { unfold power_factor. rewrite Rmult_0_l, sin_0. unfold Rdiv. ring. }
  rewrite Hw, Hf, !Rmult_0_r.
  destruct (float_ltb (vector_magnitude q) 1e-10); reflexivity.
Qed.

Lemma power_1 (q : Quaternion.t) :
  1e-10 <= norm q ->
  vector_magnitude q = 0 \/ 1e-10 <= vector_magnitude q ->
  Quaternion.power q 1 = Ok q.
Proof.
  intros Hn Hv. rewrite power_past_guard by exact Hn.
  assert (Hw : power_new_w q 1 = Quaternion.w q).
  { unfold power_new_w. rewrite Rpower_1 by lra.
    rewrite Rmult_1_l, cos_power_theta by lra. field. lra. }
  rewrite Hw. destruct Hv as [Hz | Hb].
  - rewrite Hz. rewrite float_ltb_true by lra.
    apply vector_magnitude_zero in Hz. destruct Hz as (Hx & Hy & Hz).
    f_equal. quaternion_ring; congruence.
  - rewrite float_ltb_false by exact Hb.
    assert (Hf : power_factor q 1 = 1).
    { unfold power_factor. rewrite Rpower_1 by lra.
      rewrite Rmult_1_l, sin_power_theta by lra. field. lra. }
    rewrite Hf. f_equal. quaternion_ring.
Qed.

Lemma power_2 (q : Quaternion.t) :
  1e-10 <= norm q ->
  vector_magnitude q = 0 \/ 1e-10 <= vector_magnitude q ->
  Quaternion.power q 2 = Ok (Quaternion.multiply q q).
Proof.
  intros Hn Hv. rewrite power_past_guard by exact Hn.
  pose proof (norm_sqr q) as Hs. unfold norm_squared in Hs.
  pose proof (vector_magnitude_sqr q) as Hm.
  assert (Hw : power_new_w q 2
               = Quaternion.w q * Quaternion.w q - Quaternion.x q * Quaternion.x q
                 - Quaternion.y q * Quaternion.y q - Quaternion.z q * Quaternion.z q).
  { unfold power_new_w. rewrite Rpower_2 by lra.
    rewrite cos_2a, cos_power_theta, sin_power_theta by lra.
    replace (norm q * norm q
             * (Quaternion.w q / norm q * (Quaternion.w q / norm q)
                - vector_magnitude q / norm q * (vector_magnitude q / norm q)))
      with (Quaternion.w q * Quaternion.w q - vector_magnitude q * vector_magnitude q)
      by (field; lra).
    rewrite Hm. ring. }
  rewrite Hw. destruct Hv as [Hz | Hb].
  - rewrite Hz. rewrite float_ltb_true by lra.
    apply vector_magnitude_zero in Hz. destruct Hz as (Hx & Hy & Hz).
    f_equal. apply quaternion_eq; simpl; rewrite ?Hx, ?Hy, ?Hz; ring.
  - rewrite float_ltb_false by exact Hb.
    assert (Hf : power_factor q 2 = 2 * Quaternion.w q).
    { unfold power_factor. rewrite Rpower_2 by lra.
      rewrite sin_2a, cos_power_theta, sin_power_theta by lra. field. lra. }
    rewrite Hf. f_equal. quaternion_ring.
Qed.

Lemma norm_0_0_2_0 : norm (Quaternion.new 0 0 2 0) = 2.
Proof.
  unfold norm, norm_squared; simpl.
  replace (0 * (0 * 1) + 0 * (0 * 1) + 2 * (2 * 1) + 0 * (0 * 1)) with (2 * 2) by ring.
  apply sqrt_square. lra.
Qed.

Lemma vector_magnitude_0_0_2_0 : vector_magnitude (Quaternion.new 0 0 2 0) = 2.
Proof.
  unfold vector_magnitude; simpl.
  replace (0 * (0 * 1) + 2 * (2 * 1) + 0 * (0 * 1)) with (2 * 2) by ring.
  apply sqrt_square. lra.
Qed.

Lemma norm_tiny_vector : 1 <= norm (Quaternion.new 1 1e-11 0 0).
Proof.
  unfold norm, norm_squared; simpl.
  rewrite <- sqrt_1 at 1. apply sqrt_le_1_alt. lra.
Qed.

Lemma vector_magnitude_tiny_vector (a : R) :
  vector_magnitude (Quaternion.new a 1e-11 0 0) = 1e-11.
Proof.
  unfold vector_magnitude; simpl.
  replace (1e-11 * (1e-11 * 1) + 0 * (0 * 1) + 0 * (0 * 1)) with (1e-11 * 1e-11) by lra.
  apply sqrt_square. lra.
Qed.

(** C2 as stated fails on the code.  The zero quaternion falls under the
    norm guard, so its power 0 is the zero quaternion, not the identity; and
    (1, 1e-11, 0, 0), whose vector part is non-zero but shorter than 1e-10,
    loses that vector part under power 1 and power 2. *)
Lemma power_laws_counterexample :
  Quaternion.power (Quaternion.new 0 0 0 0) 0 = Ok (Quaternion.new 0 0 0 0)
  /\ Quaternion.power (Quaternion.new 0 0 0 0) 0 <> Ok (Quaternion.new 1 0 0 0)
  /\ Quaternion.power (Quaternion.new 1 1e-11 0 0) 1 <> Ok (Quaternion.new 1 1e-11 0 0)
  /\ Quaternion.power (Quaternion.new 1 1e-11 0 0) 2
     <> Ok (Quaternion.multiply (Quaternion.new 1 1e-11 0 0) (Quaternion.new 1 1e-11 0 0)).
Proof.
  assert (Hz : Quaternion.power (Quaternion.new 0 0 0 0) 0 = Ok (Quaternion.new 0 0 0 0)).
  { apply (power_zero_branch zero_quaternion). rewrite norm_zero_quaternion. lra. }
  assert (Ht : forall e, exists nw,
             Quaternion.power (Quaternion.new 1 1e-11 0 0) e = Ok (Quaternion.new nw 0 0 0)).
  { intros e. eexists. rewrite power_past_guard by (pose proof norm_tiny_vector; lra).
    rewrite vector_magnitude_tiny_vector, float_ltb_true by lra. reflexivity. }
  split; [exact Hz |]. split; [| split].
  - rewrite Hz. intros E. injection E as E. lra.
  - destruct (Ht 1) as [nw ->]. intros E. injection E as _ E. lra.
  - destruct (Ht 2) as [nw ->]. unfold Quaternion.multiply; simpl.
    intros E. injection E as _ E. lra.
Qed.

(** C2, amended: for every quaternion whose norm is at least 1e-10,
    power 0 is the identity; when moreover its vector part is exactly zero
    or of magnitude at least 1e-10, power 1 is the quaternion itself and
    power 2 is its product with itself. *)
Theorem power_laws (q : Quaternion.t) :
  1e-10 <= norm q ->
  Quaternion.power q 0 = Ok identity
  /\ (vector_magnitude q = 0 \/ 1e-10 <= vector_magnitude q ->
      Quaternion.power q 1 = Ok q
      /\ Quaternion.power q 2 = Ok (Quaternion.multiply q q)).
Proof.
  intros Hn. split; [apply power_0, Hn |].
  intros Hv. split; [apply power_1 | apply power_2]; assumption.
Qed.

(** C2, at the non-unit quaternion (0,0,2,0). *)
Lemma power_laws_witness :
  Quaternion.power (Quaternion.new 0 0 2 0) 0 = Ok identity
  /\ Quaternion.power (Quaternion.new 0 0 2 0) 1 = Ok (Quaternion.new 0 0 2 0)
  /\ Quaternion.power (Quaternion.new 0 0 2 0) 2
     = Ok (Quaternion.multiply (Quaternion.new 0 0 2 0) (Quaternion.new 0 0 2 0)).
Proof.
  assert (Hn : 1e-10 <= norm (Quaternion.new 0 0 2 0)) by (rewrite norm_0_0_2_0; lra).
  split.
  - apply (proj1 (power_laws (Quaternion.new 0 0 2 0) Hn)).
  - apply (proj2 (power_laws (Quaternion.new 0 0 2 0) Hn)).
    right. rewrite vector_magnitude_0_0_2_0. lra.
Defined.

(** ** Unit quaternions *)

Lemma inverse_unit (q : Quaternion.t) :
  is_unit q -> Quaternion.inverse q = Ok (Quaternion.conjugate q).
Proof.
  intros Hu. apply is_unit_norm_squared in Hu.
  rewrite inverse_ok by lra. rewrite Hu. f_equal.
  unfold Quaternion.conjugate. f_equal; field.
Qed.

Lemma norm_squared_conjugate (q : Quaternion.t) :
  norm_squared (Quaternion.conjugate q) = norm_squared q.
Proof. unfold norm_squared, Quaternion.conjugate; simpl. ring. Qed.

Lemma norm_squared_negate (q : Quaternion.t) :
  norm_squared (negate q) = norm_squared q.
Proof. unfold norm_squared, negate; simpl. ring. Qed.

Lemma multiply_identity_l (q : Quaternion.t) : Quaternion.multiply identity q = q.
Proof. unfold identity. quaternion_ring. Qed.

Lemma multiply_conjugate_cancel (a b : Quaternion.t) :
  norm_squared b = 1 ->
  Quaternion.multiply (Quaternion.multiply a (Quaternion.conjugate b)) b = a.
Proof.
  intros Hb. unfold norm_squared in Hb.
  apply quaternion_eq; simpl.
  - transitivity (Quaternion.w a * (Quaternion.w b ^ 2 + Quaternion.x b ^ 2
                                    + Quaternion.y b ^ 2 + Quaternion.z b ^ 2)); [ring |].
    rewrite Hb. ring.
  - transitivity (Quaternion.x a * (Quaternion.w b ^ 2 + Quaternion.x b ^ 2
                                    + Quaternion.y b ^ 2 + Quaternion.z b ^ 2)); [ring |].
    rewrite Hb. ring.
  - transitivity (Quaternion.y a * (Quaternion.w b ^ 2 + Quaternion.x b ^ 2
                                    + Quaternion.y b ^ 2 + Quaternion.z b ^ 2)); [ring |].
    rewrite Hb. ring.
  - transitivity (Quaternion.z a * (Quaternion.w b ^ 2 + Quaternion.x b ^ 2
                                    + Quaternion.y b ^ 2 + Quaternion.z b ^ 2)); [ring |].
    rewrite Hb. ring.
Qed.

(** ** slerp *)

Lemma slerp_unit_start (q1 q2 : Quaternion.t) (t : R) :
  is_unit q1 ->
  slerp q1 q2 t true
  = (fraction_rotation <-
       Quaternion.power
         (Quaternion.multiply (slerp_target q1 q2) (Quaternion.conjugate q1)) t ;;
     Ok (Quaternion.multiply fraction_rotation q1)).
Proof.
  intros Hu. unfold slerp. rewrite (inverse_unit q1 Hu). reflexivity.
Qed.

Lemma norm_squared_slerp_target (q1 q2 : Quaternion.t) :
  norm_squared (slerp_target q1 q2) = norm_squared q2.
Proof.
  unfold slerp_target. destruct (float_ltb (dot q1 q2) 0);
    [apply norm_squared_negate | reflexivity].
Qed.

Lemma is_unit_rotation (q1 q2 : Quaternion.t) :
  is_unit q1 -> is_unit q2 ->
  norm (Quaternion.multiply (slerp_target q1 q2) (Quaternion.conjugate q1)) = 1.
Proof.
  intros H1 H2. apply is_unit_norm_squared in H1, H2.
  apply is_unit_norm_squared.
  rewrite norm_squared_multiply, norm_squared_slerp_target, norm_squared_conjugate.
  rewrite H1, H2. ring.
Qed.

Lemma vector_magnitude_rotation (q1 q2 : Quaternion.t) :
  is_unit q1 -> is_unit q2 ->
  vector_magnitude (Quaternion.multiply (slerp_target q1 q2) (Quaternion.conjugate q1))
  = sqrt (1 - dot q1 q2 ^ 2).
Proof.
  intros H1 H2. apply is_unit_norm_squared in H1, H2.
  unfold vector_magnitude. f_equal.
  assert (E : forall a : Quaternion.t,
             norm_squared a = 1 ->
             Quaternion.x (Quaternion.multiply a (Quaternion.conjugate q1)) ^ 2
             + Quaternion.y (Quaternion.multiply a (Quaternion.conjugate q1)) ^ 2
             + Quaternion.z (Quaternion.multiply a (Quaternion.conjugate q1)) ^ 2
             = 1 - dot q1 a ^ 2).
  { intros a Ha. unfold norm_squared in *.
    transitivity ((Quaternion.w a ^ 2 + Quaternion.x a ^ 2
                   + Quaternion.y a ^ 2 + Quaternion.z a ^ 2)
                  * (Quaternion.w q1 ^ 2 + Quaternion.x q1 ^ 2
                     + Quaternion.y q1 ^ 2 + Quaternion.z q1 ^ 2)
                  - dot q1 a ^ 2).
    - unfold dot; simpl. ring.
    - rewrite Ha, H1. ring. }
  rewrite E by (rewrite norm_squared_slerp_target; exact H2).
  unfold slerp_target. destruct (float_ltb (dot q1 q2) 0); [| reflexivity].
  f_equal. unfold dot, negate; simpl. ring.
Qed.

Lemma slerp_0 (q1 q2 : Quaternion.t) :
  is_unit q1 -> is_unit q2 -> slerp q1 q2 0 true = Ok q1.
Proof.
  intros H1 H2. rewrite slerp_unit_start by exact H1.
  rewrite power_0 by (rewrite is_unit_rotation by assumption; lra).
  cbn [bind]. rewrite multiply_identity_l. reflexivity.
Qed.

Lemma slerp_1 (q1 q2 : Quaternion.t) :
  is_unit q1 -> is_unit q2 ->
  dot q1 q2 ^ 2 = 1 \/ dot q1 q2 ^ 2 <= 1 - 1e-20 ->
  slerp q1 q2 1 true = Ok (slerp_target q1 q2).
Proof.
  intros H1 H2 Hd. rewrite slerp_unit_start by exact H1.
  rewrite power_1.
  - cbn [bind]. rewrite multiply_conjugate_cancel; [reflexivity |].
    apply is_unit_norm_squared, H1.
  - rewrite is_unit_rotation by assumption. lra.
  - rewrite vector_magnitude_rotation by assumption.
    destruct Hd as [E | L].
    + left. rewrite E. replace (1 - 1) with 0 by ring. apply sqrt_0.
    + right. replace 1e-10 with (sqrt (1e-10 * 1e-10)) by (apply sqrt_square; lra).
      apply sqrt_le_1_alt. lra.
Qed.

Lemma slerp_target_nonneg (q1 q2 : Quaternion.t) :
  0 <= dot q1 q2 -> slerp_target q1 q2 = q2.
Proof.
  intros H. unfold slerp_target. rewrite float_ltb_false by exact H. reflexivity.
Qed.

Lemma slerp_target_neg (q1 q2 : Quaternion.t) :
  dot q1 q2 < 0 -> slerp_target q1 q2 = negate q2.
Proof.
  intros H. unfold slerp_target. rewrite float_ltb_true by exact H. reflexivity.
Qed.

Lemma is_unit_identity : is_unit identity.
Proof. exact norm_identity. Qed.

Lemma is_unit_minus_identity : is_unit (Quaternion.new (-1) 0 0 0).
Proof.
  apply is_unit_norm_squared. unfold norm_squared; simpl. ring.
Qed.

Lemma is_unit_near_identity :
  is_unit (Quaternion.new (sqrt (1 - 1e-22)) 1e-11 0 0).
Proof.
  apply is_unit_norm_squared. unfold norm_squared; simpl.
  rewrite Rmult_1_r, sqrt_sqrt by lra. lra.
Qed.

(** C1 as stated fails on the code at t = 1.  With q1 = (1,0,0,0) and
    q2 = (-1,0,0,0), both unit and of negative dot product, the
    shortest-path branch replaces q2 by its negation and slerp ends on
    (1,0,0,0), not on q2.  And with q2 = (sqrt(1 - 1e-22), 1e-11, 0, 0),
    of positive dot product with q1, the relative rotation has a non-zero
    vector part shorter than 1e-10, which [power] drops: the x component
    of the end point is 0, not 1e-11. *)
Lemma slerp_boundary_counterexample :
  is_unit (Quaternion.new 1 0 0 0) /\ is_unit (Quaternion.new (-1) 0 0 0)
  /\ slerp (Quaternion.new 1 0 0 0) (Quaternion.new (-1) 0 0 0) 1 true
     = Ok (negate (Quaternion.new (-1) 0 0 0))
  /\ slerp (Quaternion.new 1 0 0 0) (Quaternion.new (-1) 0 0 0) 1 true
     <> Ok (Quaternion.new (-1) 0 0 0)
  /\ is_unit (Quaternion.new (sqrt (1 - 1e-22)) 1e-11 0 0)
  /\ slerp (Quaternion.new 1 0 0 0) (Quaternion.new (sqrt (1 - 1e-22)) 1e-11 0 0) 1 true
     <> Ok (Quaternion.new (sqrt (1 - 1e-22)) 1e-11 0 0).
Proof.
  assert (Hs : slerp (Quaternion.new 1 0 0 0) (Quaternion.new (-1) 0 0 0) 1 true
               = Ok (negate (Quaternion.new (-1) 0 0 0))).
  { assert (Hd : dot identity (Quaternion.new (-1) 0 0 0) = -1)
      by (unfold dot, identity; simpl; ring).
    change (Quaternion.new 1 0 0 0) with identity.
    rewrite slerp_1.
    - rewrite slerp_target_neg by (rewrite Hd; lra). reflexivity.
    - apply is_unit_identity.
    - apply is_unit_minus_identity.
    - left. rewrite Hd. ring. }
  split; [apply is_unit_identity |]. split; [apply is_unit_minus_identity |].
  split; [exact Hs |]. split; [| split; [apply is_unit_near_identity |]].
  - rewrite Hs. unfold negate; simpl. intros E. injection E as E. lra.
  - set (s := sqrt (1 - 1e-22)).
    assert (Hpos : 0 < s) by (apply sqrt_lt_R0; lra).
    change (Quaternion.new 1 0 0 0) with identity.
    rewrite slerp_unit_start by apply is_unit_identity.
    rewrite slerp_target_nonneg by (unfold dot, identity; simpl; lra).
    replace (Quaternion.multiply (Quaternion.new s 1e-11 0 0) (Quaternion.conjugate identity))
      with (Quaternion.new s 1e-11 0 0) by (unfold identity; quaternion_ring).
    rewrite power_past_guard
      by (rewrite (is_unit_near_identity : norm (Quaternion.new s 1e-11 0 0) = 1); lra).
    rewrite vector_magnitude_tiny_vector, float_ltb_true by lra.
    cbn [bind]. unfold Quaternion.multiply, identity; simpl.
    intros E. injection E as _ E. lra.
Qed.

(** C1, amended: for unit quaternions q1 and q2 and shortestPath = true,
    slerp(q1, q2, 0) is q1.  When the vector part of the relative rotation
    is exactly zero or at least 1e-10 long (dot(q1,q2)² = 1 or
    dot(q1,q2)² <= 1 - 1e-20), slerp(q1, q2, 1) is q2 if dot(q1,q2) >= 0 and
    the negation of q2, the other representative of the same rotation, if
    dot(q1,q2) < 0. *)
Theorem slerp_boundary (q1 q2 : Quaternion.t) :
  is_unit q1 -> is_unit q2 ->
  slerp q1 q2 0 true = Ok q1
  /\ (dot q1 q2 ^ 2 = 1 \/ dot q1 q2 ^ 2 <= 1 - 1e-20 ->
      (0 <= dot q1 q2 -> slerp q1 q2 1 true = Ok q2)
      /\ (dot q1 q2 < 0 -> slerp q1 q2 1 true = Ok (negate q2))).
Proof.
  intros H1 H2. split; [apply slerp_0; assumption |].
  intros Hd. split; intros Hs.
  - rewrite slerp_1 by assumption. rewrite slerp_target_nonneg by exact Hs. reflexivity.
  - rewrite slerp_1 by assumption. rewrite slerp_target_neg by exact Hs. reflexivity.
Qed.

(** C1, at q1 = i, q2 = j (dot product 0) and at q1 = (1,0,0,0),
    q2 = (-1,0,0,0) (dot product -1). *)
Lemma slerp_boundary_witness :
  slerp qi qj 0 true = Ok qi
  /\ slerp qi qj 1 true = Ok qj
  /\ slerp identity (Quaternion.new (-1) 0 0 0) 1 true
     = Ok (negate (Quaternion.new (-1) 0 0 0)).
Proof.
  assert (Hij : dot qi qj = 0) by (unfold dot, qi, qj; simpl; ring).
  assert (Hneg : dot identity (Quaternion.new (-1) 0 0 0) = -1)
    by (unfold dot, identity; simpl; ring).
  split; [| split].
  - apply (proj1 (slerp_boundary qi qj is_unit_qi is_unit_qj)).
  - apply (proj2 (slerp_boundary qi qj is_unit_qi is_unit_qj)).
    + right. rewrite Hij. lra.
    + rewrite Hij. lra.
  - apply (proj2 (slerp_boundary identity (Quaternion.new (-1) 0 0 0)
                    is_unit_identity is_unit_minus_identity)).
    + left. rewrite Hneg. ring.
    + rewrite Hneg. lra.
Defined.

(** ** Quaternion.transform *)

Lemma transform_unit (q : Quaternion.t) (v : Vector3.t) :
  is_unit q ->
  Quaternion.transform q v
  = Ok (vector_part
          (Quaternion.multiply (Quaternion.multiply q (pure v)) (Quaternion.conjugate q))).
Proof.
  intros Hu. unfold Quaternion.transform. rewrite (inverse_unit q Hu). reflexivity.
Qed.

Lemma conjugation_sq_length (q : Quaternion.t) (v : Vector3.t) :
  let r := vector_part
             (Quaternion.multiply (Quaternion.multiply q (pure v)) (Quaternion.conjugate q)) in
  Vector3.x r * Vector3.x r + Vector3.y r * Vector3.y r + Vector3.z r * Vector3.z r
  = norm_squared q * norm_squared q
    * (Vector3.x v * Vector3.x v + Vector3.y v * Vector3.y v + Vector3.z v * Vector3.z v).
Proof.
  unfold norm_squared, vector_part, pure, Quaternion.multiply, Quaternion.conjugate; simpl.
  ring.
Qed.

(** C4: for a unit quaternion q, [transform] returns the vector part of
    q (0,v) q⁻¹, where q⁻¹ is what [inverse] returns and satisfies
    q q⁻¹ = (1,0,0,0), and that vector has the length of v. *)
Theorem transform_rotates (q : Quaternion.t) (v : Vector3.t) :
  is_unit q ->
  exists inv r,
    Quaternion.inverse q = Ok inv
    /\ Quaternion.multiply q inv = identity
    /\ Quaternion.transform q v = Ok r
    /\ r = vector_part (Quaternion.multiply (Quaternion.multiply q (pure v)) inv)
    /\ Vector3.length r = Vector3.length v.
Proof.
  intros Hu. exists (Quaternion.conjugate q). eexists.
  split; [apply inverse_unit, Hu |].
  pose proof Hu as Hn. apply is_unit_norm_squared in Hn.
  split.
  { unfold identity. unfold norm_squared in Hn.
    apply quaternion_eq; simpl; try ring.
    rewrite <- Hn. ring. }
  split; [apply transform_unit, Hu |]. split; [reflexivity |].
  rewrite !length_ok. f_equal. unfold vlen.
  rewrite (conjugation_sq_length q v), Hn. f_equal. ring.
Qed.

(** C4, at q = i and v = (1,2,3): the half turn about the x axis. *)
Lemma transform_rotates_witness :
  exists inv r,
    Quaternion.inverse qi = Ok inv
    /\ Quaternion.multiply qi inv = identity
    /\ Quaternion.transform qi (Vector3.new 1 2 3) = Ok r
    /\ r = vector_part
             (Quaternion.multiply (Quaternion.multiply qi (pure (Vector3.new 1 2 3))) inv)
    /\ Vector3.length r = Vector3.length (Vector3.new 1 2 3).
Proof.
  exact (transform_rotates qi (Vector3.new 1 2 3) is_unit_qi).
Defined.

Example transform_qi_1_2_3 :
  Quaternion.transform qi (Vector3.new 1 2 3) = Ok (Vector3.new 1 (-2) (-3)).
Proof.
  rewrite transform_unit by apply is_unit_qi.
  unfold vector_part, pure, qi, Quaternion.multiply, Quaternion.conjugate; simpl.
  f_equal. f_equal; ring.
Qed.

(** ** Axis and angle *)

Lemma cos_lower (a : R) : -2 <= a <= 2 -> 1 - a * a / 2 <= cos a.
Proof.
  intros [Hl Hu]. destruct (pre_cos_bound a 0 Hl Hu) as [H _].
  unfold cos_approx, cos_term in H. simpl in H. lra.
Qed.

Lemma axis_angle_sentinel (q : Quaternion.t) :
  Rabs (Quaternion.w q) > 0.9999 ->
  get_rotation_axis_and_angle q = Ok (Vector3.new 0 0 1, 0).
Proof.
  intros H. unfold get_rotation_axis_and_angle.
  rewrite float_gtb_true by exact H. reflexivity.
Qed.

Lemma axis_angle_computed (q : Quaternion.t) :
  Rabs (Quaternion.w q) <= 0.9999 ->
  get_rotation_axis_and_angle q
  = Ok (Vector3.new (Quaternion.x q / sqrt (1 - Quaternion.w q * Quaternion.w q))
          (Quaternion.y q / sqrt (1 - Quaternion.w q * Quaternion.w q))
          (Quaternion.z q / sqrt (1 - Quaternion.w q * Quaternion.w q)),
        2 * acos (Quaternion.w q)).
Proof.
  intros H. unfold get_rotation_axis_and_angle.
  rewrite float_gtb_false by exact H.
  assert (Hw : -0.9999 <= Quaternion.w q <= 0.9999).
  { unfold Rabs in H. destruct (Rcase_abs (Quaternion.w q)); lra. }
  rewrite math_acos_ok by lra. cbn [bind].
  assert (Hp : 0 < 1 - Quaternion.w q * Quaternion.w q) by nra.
  rewrite math_sqrt_ok by lra. cbn [bind].
  assert (Hs : sqrt (1 - Quaternion.w q * Quaternion.w q) <> 0).
  { pose proof (sqrt_lt_R0 _ Hp). lra. }
  rewrite !float_div_ok by exact Hs. reflexivity.
Qed.

Lemma from_axis_angle_nonzero (axis : Vector3.t) (angle : R) :
  vlen axis <> 0 ->
  Quaternion.from_axis_angle axis angle
  = Ok (Quaternion.new (cos (angle / 2))
          (Vector3.x axis / vlen axis * sin (angle / 2))
          (Vector3.y axis / vlen axis * sin (angle / 2))
          (Vector3.z axis / vlen axis * sin (angle / 2))).
Proof.
  intros Hl. unfold Quaternion.from_axis_angle. rewrite length_ok. cbn [bind].
  destruct (float_eqb (vlen axis) 1) eqn:E.
  - apply float_eqb_eq in E. cbn [bind negb]. rewrite E. f_equal.
    apply quaternion_eq; simpl; field.
  - rewrite (normalize_nonzero axis Hl). reflexivity.
Qed.

Lemma sqrt_one_minus_cos_sqr (a : R) :
  0 <= sin a -> sqrt (1 - cos a * cos a) = sin a.
Proof.
  intros Hs. pose proof (sin2_cos2 a) as H. unfold Rsqr in H.
  replace (1 - cos a * cos a) with (sin a * sin a) by lra.
  apply sqrt_square, Hs.
Qed.

Lemma axis_angle_of_from_axis_angle (axis : Vector3.t) (theta : R) :
  vlen axis <> 0 -> 0 < theta < PI -> cos (theta / 2) <= 0.9999 ->
  exists q,
    Quaternion.from_axis_angle axis theta = Ok q
    /\ get_rotation_axis_and_angle q
       = Ok (Vector3.new (Vector3.x axis / vlen axis) (Vector3.y axis / vlen axis)
               (Vector3.z axis / vlen axis), theta).
Proof.
  intros Hl [H0 Hpi] Hc. eexists. split; [apply from_axis_angle_nonzero, Hl |].
  assert (Hcos : 0 < cos (theta / 2)) by (apply cos_gt_0; lra).
  assert (Hsin : 0 < sin (theta / 2)) by (apply sin_gt_0; lra).
  rewrite axis_angle_computed by (simpl; rewrite Rabs_pos_eq; lra).
  simpl. rewrite sqrt_one_minus_cos_sqr by lra.
  rewrite acos_cos by lra.
  f_equal. f_equal; [f_equal; field; lra | field].
Qed.

(** C7 as stated fails on the code: for the unit axis (1,0,0) and the
    angle 1/50, inside (0, pi), the quaternion built has
    w = cos(1/100) > 0.9999, so the extraction returns the sentinel axis
    (0,0,1) and the angle 0, not the axis (1,0,0) and the angle 1/50. *)
Lemma axis_angle_round_trip_counterexample :
  Vector3.is_zero (Vector3.new 1 0 0) = false
  /\ 0 < 1 / 50 < PI
  /\ Vector3.normalize (Vector3.new 1 0 0) = Ok (Vector3.new 1 0 0)
  /\ exists q,
       Quaternion.from_axis_angle (Vector3.new 1 0 0) (1 / 50) = Ok q
       /\ get_rotation_axis_and_angle q = Ok (Vector3.new 0 0 1, 0)
       /\ get_rotation_axis_and_angle q <> Ok (Vector3.new 1 0 0, 1 / 50).
Proof.
  assert (Hlen : vlen (Vector3.new 1 0 0) = 1).
  { unfold vlen; simpl. replace (1 * 1 + 0 * 0 + 0 * 0) with 1 by ring. apply sqrt_1. }
  split.
  { unfold Vector3.is_zero; simpl. rewrite float_eqb_false by lra. reflexivity. }
  split.
  { pose proof PI2_1. lra. }
  split.
  { rewrite normalize_nonzero by (rewrite Hlen; lra). rewrite Hlen; simpl.
    f_equal. f_equal; field. }
  eexists. split; [apply from_axis_angle_nonzero; rewrite Hlen; lra |].
  assert (Hs : get_rotation_axis_and_angle
                 (Quaternion.new (cos (1 / 50 / 2))
                    (Vector3.x (Vector3.new 1 0 0) / vlen (Vector3.new 1 0 0) * sin (1 / 50 / 2))
                    (Vector3.y (Vector3.new 1 0 0) / vlen (Vector3.new 1 0 0) * sin (1 / 50 / 2))
                    (Vector3.z (Vector3.new 1 0 0) / vlen (Vector3.new 1 0 0) * sin (1 / 50 / 2)))
               = Ok (Vector3.new 0 0 1, 0)).
  { apply axis_angle_sentinel; simpl.
    pose proof (cos_lower (1 / 50 / 2)) as Hc.
    rewrite Rabs_pos_eq; lra. }
  split; [exact Hs |].
  rewrite Hs. intros E. injection E. intros. lra.
Qed.

(** C7, amended: for every non-zero axis and every angle theta in (0, pi)
    with cos(theta/2) <= 0.9999, the extraction applied to
    from_axis_angle(axis, theta) returns exactly the normalized axis and
    theta; for theta = 0, and whenever the input quaternion has
    |w| > 0.9999, it returns the sentinel axis (0,0,1) and the angle 0. *)
Theorem axis_angle_round_trip :
  (forall (axis : Vector3.t) (theta : R),
      Vector3.is_zero axis = false -> 0 < theta < PI -> cos (theta / 2) <= 0.9999 ->
      exists q n,
        Quaternion.from_axis_angle axis theta = Ok q
        /\ Vector3.normalize axis = Ok n
        /\ get_rotation_axis_and_angle q = Ok (n, theta))
  /\ (forall axis : Vector3.t,
         Vector3.is_zero axis = false ->
         exists q,
           Quaternion.from_axis_angle axis 0 = Ok q
           /\ get_rotation_axis_and_angle q = Ok (Vector3.new 0 0 1, 0))
  /\ (forall q : Quaternion.t,
         Rabs (Quaternion.w q) > 0.9999 ->
         get_rotation_axis_and_angle q = Ok (Vector3.new 0 0 1, 0)).
Proof.
  assert (Hnz : forall axis, Vector3.is_zero axis = false -> vlen axis <> 0).
  { intros axis Hz E. apply vlen_zero_iff in E. congruence. }
  split; [| split].
  - intros axis theta Hz Ht Hc.
    destruct (axis_angle_of_from_axis_angle axis theta (Hnz axis Hz) Ht Hc) as (q & Hq & Hg).
    exists q. eexists. split; [exact Hq |].
    split; [apply normalize_nonzero, Hnz, Hz | exact Hg].
  - intros axis Hz. eexists. split; [apply from_axis_angle_nonzero, Hnz, Hz |].
    apply axis_angle_sentinel; simpl.
    replace (0 / 2) with 0 by field. rewrite cos_0, Rabs_R1. lra.
  - exact axis_angle_sentinel.
Qed.

(** C7, at the axis (0,0,2) and the angle 2 pi / 3, whose half-angle
    cosine is 1/2, and at the identity quaternion. *)
Lemma axis_angle_round_trip_witness :
  (exists q n,
      Quaternion.from_axis_angle (Vector3.new 0 0 2) (2 * (PI / 3)) = Ok q
      /\ Vector3.normalize (Vector3.new 0 0 2) = Ok n
      /\ get_rotation_axis_and_angle q = Ok (n, 2 * (PI / 3)))
  /\ get_rotation_axis_and_angle identity = Ok (Vector3.new 0 0 1, 0).
Proof.
  split.
  - apply (proj1 axis_angle_round_trip (Vector3.new 0 0 2) (2 * (PI / 3))).
    + unfold Vector3.is_zero; simpl.
      rewrite (float_eqb_false 2 0) by lra. rewrite Bool.andb_false_r. reflexivity.
    + pose proof PI_RGT_0. lra.
    + replace (2 * (PI / 3) / 2) with (PI / 3) by field. rewrite cos_PI3. lra.
  - apply (proj2 (proj2 axis_angle_round_trip) identity).
    unfold identity; simpl. rewrite Rabs_R1. lra.
Defined.

(** * Further properties of the code *)

(** ** Vector3: arithmetic *)

Lemma vector_eq (a b : Vector3.t) :
  Vector3.x a = Vector3.x b -> Vector3.y a = Vector3.y b ->
  Vector3.z a = Vector3.z b -> a = b.
Proof. destruct a, b; simpl; intros; subst; reflexivity. Qed.

Ltac vector_ring := apply vector_eq; simpl; try ring.

Lemma vlen_sqr (v : Vector3.t) : vlen v * vlen v = Vector3.dot v v.
Proof. unfold vlen, Vector3.dot. apply sqrt_sqrt, sum3_sq_nonneg. Qed.

Lemma vlen_nonneg (v : Vector3.t) : 0 <= vlen v.
Proof. unfold vlen. apply sqrt_pos. Qed.

Lemma vlen_dot (v : Vector3.t) : vlen v = sqrt (Vector3.dot v v).
Proof. reflexivity. Qed.

Lemma is_zero_false_vlen (v : Vector3.t) :
  Vector3.is_zero v = false -> 0 < vlen v.
Proof.
  intros Hz. pose proof (vlen_nonneg v) as Hn.
  destruct (Req_dec_T (vlen v) 0) as [E | N]; [| lra].
  apply vlen_zero_iff in E. congruence.
Qed.

(** X1: [add], [subtract] and [inverse] form the usual additive group:
    subtracting what was added gives the start back, a vector plus its
    inverse is the zero vector, and subtraction is addition of the
    inverse. *)
Theorem vector_add_subtract_inverse (a b c : Vector3.t) :
  Vector3.subtract (Vector3.add a b) b = a
  /\ Vector3.add (Vector3.subtract a b) b = a
  /\ Vector3.subtract a b = Vector3.add a (Vector3.inverse b)
  /\ Vector3.is_zero (Vector3.add a (Vector3.inverse a)) = true
  /\ Vector3.add a b = Vector3.add b a
  /\ Vector3.add (Vector3.add a b) c = Vector3.add a (Vector3.add b c)
  /\ Vector3.inverse a = Vector3.scale a (-1).
Proof.
  repeat split; try (vector_ring).
  apply is_zero_components. simpl. repeat split; ring.
Qed.

Lemma vlen_scale (v : Vector3.t) (s : R) :
  vlen (Vector3.scale v s) = Rabs s * vlen v.
Proof.
  unfold vlen at 1. simpl.
  replace (s * Vector3.x v * (s * Vector3.x v) + s * Vector3.y v * (s * Vector3.y v)
           + s * Vector3.z v * (s * Vector3.z v))
    with (s * s * Vector3.dot v v) by (unfold Vector3.dot; ring).
  rewrite sqrt_mult by (try apply sum3_sq_nonneg; nra).
  rewrite <- vlen_dot. f_equal.
  change (s * s) with (Rsqr s). apply sqrt_Rsqr_abs.
Qed.

Lemma cross_lagrange (a b : Vector3.t) :
  Vector3.dot (Vector3.cross a b) (Vector3.cross a b)
  = Vector3.dot a a * Vector3.dot b b - Vector3.dot a b * Vector3.dot a b.
Proof. unfold Vector3.dot, Vector3.cross; simpl. ring. Qed.

Lemma cauchy_schwarz_sq (a b : Vector3.t) :
  Vector3.dot a b * Vector3.dot a b <= Vector3.dot a a * Vector3.dot b b.
Proof.
  pose proof (cross_lagrange a b) as H.
  assert (0 <= Vector3.dot (Vector3.cross a b) (Vector3.cross a b))
    by (unfold Vector3.dot; nra).
  lra.
Qed.

Lemma cauchy_schwarz (a b : Vector3.t) :
  Rabs (Vector3.dot a b) <= vlen a * vlen b.
Proof.
  rewrite <- sqrt_Rsqr_abs. rewrite !vlen_dot.
  rewrite <- sqrt_mult by (unfold Vector3.dot; nra).
  apply sqrt_le_1_alt. unfold Rsqr. apply cauchy_schwarz_sq.
Qed.

(** X2: [length] is a norm: it is homogeneous ([length (scale v s)] is
    |s| times [length v], so [inverse] keeps the length), it satisfies the
    Cauchy-Schwarz bound against [dot], and the triangle inequality over
    [add]. *)
Theorem length_is_norm (a b : Vector3.t) (s : R) :
  Vector3.length (Vector3.scale a s) = Ok (Rabs s * vlen a)
  /\ Vector3.length (Vector3.inverse a) = Vector3.length a
  /\ Rabs (Vector3.dot a b) <= vlen a * vlen b
  /\ exists la lb lab,
       Vector3.length a = Ok la /\ Vector3.length b = Ok lb
       /\ Vector3.length (Vector3.add a b) = Ok lab
       /\ lab <= la + lb.
Proof.
  split; [rewrite length_ok, vlen_scale; reflexivity |].
  split.
  { rewrite !length_ok. f_equal. unfold vlen; simpl. f_equal. ring. }
  split; [apply cauchy_schwarz |].
  exists (vlen a), (vlen b), (vlen (Vector3.add a b)).
  rewrite !length_ok. repeat split.
  pose proof (vlen_nonneg a) as Ha. pose proof (vlen_nonneg b) as Hb.
  pose proof (vlen_sqr a) as Hsa. pose proof (vlen_sqr b) as Hsb.
  pose proof (cauchy_schwarz a b) as Hcs.
  assert (Hd : Vector3.dot a b <= vlen a * vlen b).
  { pose proof (Rle_abs (Vector3.dot a b)). lra. }
  replace (vlen a + vlen b) with (sqrt ((vlen a + vlen b) * (vlen a + vlen b)))
    by (apply sqrt_square; lra).
  rewrite vlen_dot. apply sqrt_le_1_alt.
  replace (Vector3.dot (Vector3.add a b) (Vector3.add a b))
    with (Vector3.dot a a + 2 * Vector3.dot a b + Vector3.dot b b)
    by (unfold Vector3.dot; simpl; ring).
  nra.
Qed.

(** X3: [cross] is perpendicular to both of its arguments, changes sign when
    they are swapped, vanishes on parallel vectors, and its length obeys
    Lagrange's identity |a x b|^2 = |a|^2 |b|^2 - (a . b)^2. *)
Theorem cross_product_laws (a b : Vector3.t) (s : R) :
  Vector3.dot (Vector3.cross a b) a = 0
  /\ Vector3.dot (Vector3.cross a b) b = 0
  /\ Vector3.cross a b = Vector3.inverse (Vector3.cross b a)
  /\ Vector3.is_zero (Vector3.cross a (Vector3.scale a s)) = true
  /\ exists l, Vector3.length (Vector3.cross a b) = Ok l
       /\ l * l = vlen a * vlen a * (vlen b * vlen b)
                  - Vector3.dot a b * Vector3.dot a b.
Proof.
  split; [unfold Vector3.dot, Vector3.cross; simpl; ring |].
  split; [unfold Vector3.dot, Vector3.cross; simpl; ring |].
  split; [vector_ring |].
  split.
  { apply is_zero_components. simpl. repeat split; ring. }
  exists (vlen (Vector3.cross a b)). split; [apply length_ok |].
  rewrite !vlen_sqr. apply cross_lagrange.
Qed.

(** ** Vector3.normalize *)

Lemma normalize_ok (v : Vector3.t) :
  Vector3.is_zero v = false -> Vector3.normalize v = Ok (unit_direction v).
Proof.
  intros Hz. apply normalize_nonzero. pose proof (is_zero_false_vlen v Hz). lra.
Qed.

Lemma unit_direction_scale (v : Vector3.t) :
  unit_direction v = Vector3.scale v (/ vlen v).
Proof. unfold unit_direction, Vector3.scale. f_equal; unfold Rdiv; ring. Qed.

Lemma vlen_unit_direction (v : Vector3.t) :
  0 < vlen v -> vlen (unit_direction v) = 1.
Proof.
  intros Hl. rewrite unit_direction_scale, vlen_scale.
  rewrite Rabs_pos_eq by (left; apply Rinv_0_lt_compat, Hl).
  field. lra.
Qed.

Lemma unit_direction_fixed (v : Vector3.t) : vlen v = 1 -> unit_direction v = v.
Proof.
  intros H. unfold unit_direction. rewrite H. vector_ring; field.
Qed.

(** X4: [normalize] of a non-zero vector has length exactly 1, normalizing it
    again changes nothing, and the result does not depend on the length of
    the input: scaling by a positive factor first gives the same vector. *)
Theorem normalize_unit_length (v : Vector3.t) (s : R) :
  Vector3.is_zero v = false -> 0 < s ->
  exists n,
    Vector3.normalize v = Ok n
    /\ Vector3.length n = Ok 1
    /\ Vector3.normalize n = Ok n
    /\ Vector3.normalize (Vector3.scale v s) = Ok n.
Proof.
  intros Hz Hs. pose proof (is_zero_false_vlen v Hz) as Hl.
  exists (unit_direction v). split; [apply normalize_ok, Hz |].
  pose proof (vlen_unit_direction v Hl) as Hu.
  split; [rewrite length_ok, Hu; reflexivity |].
  split.
  { rewrite normalize_nonzero by lra. fold (unit_direction (unit_direction v)).
    rewrite unit_direction_fixed by exact Hu. reflexivity. }
  assert (Hls : vlen (Vector3.scale v s) = s * vlen v).
  { rewrite vlen_scale, Rabs_pos_eq by lra. reflexivity. }
  rewrite normalize_nonzero by (rewrite Hls; nra).
  rewrite Hls. f_equal. unfold unit_direction. vector_ring; field; lra.
Qed.

(** At the vector (3,0,4) and the factor 2. *)
Lemma normalize_unit_length_witness :
  exists n,
    Vector3.normalize (Vector3.new 3 0 4) = Ok n
    /\ Vector3.length n = Ok 1
    /\ Vector3.normalize n = Ok n
    /\ Vector3.normalize (Vector3.scale (Vector3.new 3 0 4) 2) = Ok n.
Proof.
  apply (normalize_unit_length (Vector3.new 3 0 4) 2).
  - unfold Vector3.is_zero; simpl. rewrite float_eqb_false by lra. reflexivity.
  - lra.
Defined.

(** ** Quaternion: the algebra of [multiply], [conjugate] and [inverse] *)

Lemma multiply_assoc (a b c : Quaternion.t) :
  Quaternion.multiply (Quaternion.multiply a b) c
  = Quaternion.multiply a (Quaternion.multiply b c).
Proof. quaternion_ring. Qed.

Lemma multiply_identity_r (q : Quaternion.t) : Quaternion.multiply q identity = q.
Proof. unfold identity. quaternion_ring. Qed.

Lemma norm_squared_zero_iff (q : Quaternion.t) :
  norm_squared q = 0 <-> q = zero_quaternion.
Proof.
  split.
  - intros H. unfold norm_squared in H.
    apply quaternion_eq; simpl; nra.
  - intros ->. unfold norm_squared, zero_quaternion; simpl. ring.
Qed.

Lemma inverse_value_ok (q : Quaternion.t) :
  norm_squared q <> 0 -> Quaternion.inverse q = Ok (inverse_value q).
Proof. exact (inverse_ok q). Qed.

Lemma norm_squared_inverse_value (q : Quaternion.t) :
  norm_squared q <> 0 -> norm_squared (inverse_value q) = / norm_squared q.
Proof.
  intros H. unfold inverse_value. unfold norm_squared at 1. simpl.
  unfold norm_squared in *. field. exact H.
Qed.

Lemma inverse_value_nonzero (q : Quaternion.t) :
  norm_squared q <> 0 -> norm_squared (inverse_value q) <> 0.
Proof.
  intros H. rewrite norm_squared_inverse_value by exact H.
  apply Rinv_neq_0_compat, H.
Qed.

Lemma inverse_value_left (q : Quaternion.t) :
  norm_squared q <> 0 -> Quaternion.multiply (inverse_value q) q = identity.
Proof.
  intros H. unfold identity, inverse_value.
  apply quaternion_eq; simpl; unfold norm_squared in *; field; exact H.
Qed.

Lemma inverse_value_right (q : Quaternion.t) :
  norm_squared q <> 0 -> Quaternion.multiply q (inverse_value q) = identity.
Proof.
  intros H. unfold identity, inverse_value.
  apply quaternion_eq; simpl; unfold norm_squared in *; field; exact H.
Qed.

Lemma multiply_nonzero (p q : Quaternion.t) :
  norm_squared p <> 0 -> norm_squared q <> 0 ->
  norm_squared (Quaternion.multiply p q) <> 0.
Proof.
  intros Hp Hq. rewrite norm_squared_multiply. apply Rmult_integral_contrapositive_currified; assumption.
Qed.

(** A two-sided inverse is unique, from associativity alone. *)
Lemma inverse_unique (q a b : Quaternion.t) :
  Quaternion.multiply a q = identity -> Quaternion.multiply q b = identity -> a = b.
Proof.
  intros Ha Hb.
  rewrite <- (multiply_identity_r a), <- Hb, <- multiply_assoc, Ha.
  apply multiply_identity_l.
Qed.

Lemma inverse_value_multiply (p q : Quaternion.t) :
  norm_squared p <> 0 -> norm_squared q <> 0 ->
  inverse_value (Quaternion.multiply p q)
  = Quaternion.multiply (inverse_value q) (inverse_value p).
Proof.
  intros Hp Hq.
  apply (inverse_unique (Quaternion.multiply p q)).
  - apply inverse_value_left, multiply_nonzero; assumption.
  - rewrite multiply_assoc, <- (multiply_assoc q).
    rewrite inverse_value_right, multiply_identity_l by exact Hq.
    apply inverse_value_right, Hp.
Qed.

Lemma inverse_value_involutive (q : Quaternion.t) :
  norm_squared q <> 0 -> inverse_value (inverse_value q) = q.
Proof.
  intros H. symmetry.
  apply (inverse_unique (inverse_value q)).
  - apply inverse_value_right, H.
  - apply inverse_value_right, inverse_value_nonzero, H.
Qed.

(** X5: Composition of rotations: [multiply] is associative and (1,0,0,0) is
    its unit on both sides. *)
Theorem multiply_monoid (a b c : Quaternion.t) :
  Quaternion.multiply (Quaternion.multiply a b) c
  = Quaternion.multiply a (Quaternion.multiply b c)
  /\ Quaternion.multiply identity a = a
  /\ Quaternion.multiply a identity = a.
Proof.
  split; [apply multiply_assoc |].
  split; [apply multiply_identity_l | apply multiply_identity_r].
Qed.

(** X6: [conjugate] undoes itself, reverses products, keeps the norm, and the
    product of a quaternion with its conjugate is its squared norm as a
    real quaternion (in either order). *)
Theorem conjugate_laws (p q : Quaternion.t) :
  Quaternion.conjugate (Quaternion.conjugate q) = q
  /\ Quaternion.conjugate (Quaternion.multiply p q)
     = Quaternion.multiply (Quaternion.conjugate q) (Quaternion.conjugate p)
  /\ norm (Quaternion.conjugate q) = norm q
  /\ Quaternion.multiply q (Quaternion.conjugate q)
     = Quaternion.new (norm_squared q) 0 0 0
  /\ Quaternion.multiply (Quaternion.conjugate q) q
     = Quaternion.new (norm_squared q) 0 0 0.
Proof.
  split; [quaternion_ring |]. split; [quaternion_ring |].
  split; [unfold norm; rewrite norm_squared_conjugate; reflexivity |].
  split; unfold norm_squared; quaternion_ring.
Qed.

(** X7: for every quaternion whose squared norm is not zero, what
    [inverse] returns is an inverse on the left as well as on the right,
    and inverting it again gives the quaternion back (exact
    arithmetic). *)
Theorem inverse_two_sided (q : Quaternion.t) :
  norm_squared q <> 0 ->
  exists inv,
    Quaternion.inverse q = Ok inv
    /\ Quaternion.multiply inv q = identity
    /\ Quaternion.multiply q inv = identity
    /\ Quaternion.inverse inv = Ok q.
Proof.
  intros N. exists (inverse_value q).
  split; [apply inverse_value_ok, N |].
  split; [apply inverse_value_left, N |].
  split; [apply inverse_value_right, N |].
  rewrite inverse_value_ok by (apply inverse_value_nonzero, N).
  rewrite inverse_value_involutive by exact N. reflexivity.
Qed.

(** At q = (1,2,3,4), of squared norm 30. *)
Lemma inverse_two_sided_witness :
  exists inv,
    Quaternion.inverse (Quaternion.new 1 2 3 4) = Ok inv
    /\ Quaternion.multiply inv (Quaternion.new 1 2 3 4) = identity
    /\ Quaternion.multiply (Quaternion.new 1 2 3 4) inv = identity
    /\ Quaternion.inverse inv = Ok (Quaternion.new 1 2 3 4).
Proof.
  apply (inverse_two_sided (Quaternion.new 1 2 3 4)).
  unfold norm_squared; simpl. lra.
Defined.

(** X8: The inverse of a product is the product of the inverses in the
    opposite order; if either factor is the zero quaternion, so is the
    product, and its inverse raises. *)
Theorem inverse_of_product (p q : Quaternion.t) :
  Quaternion.inverse (Quaternion.multiply p q)
  = (iq <- Quaternion.inverse q ;;
     ip <- Quaternion.inverse p ;;
     Ok (Quaternion.multiply iq ip)).
Proof.
  destruct (Req_dec_T (norm_squared q) 0) as [Eq | Nq].
  - rewrite (inverse_zero_norm q Eq). cbn [bind].
    apply inverse_zero_norm. rewrite norm_squared_multiply, Eq. ring.
  - rewrite (inverse_value_ok q Nq). cbn [bind].
    destruct (Req_dec_T (norm_squared p) 0) as [Ep | Np].
    + rewrite (inverse_zero_norm p Ep). cbn [bind].
      apply inverse_zero_norm. rewrite norm_squared_multiply, Ep. ring.
    + rewrite (inverse_value_ok p Np). cbn [bind].
      rewrite inverse_value_ok by (apply multiply_nonzero; assumption).
      rewrite inverse_value_multiply by assumption. reflexivity.
Qed.

(** ** Quaternion.transform on arbitrary quaternions *)

Lemma transform_ok (q : Quaternion.t) (v : Vector3.t) :
  norm_squared q <> 0 -> Quaternion.transform q v = Ok (transform_value q v).
Proof.
  intros H. unfold Quaternion.transform. rewrite (inverse_value_ok q H). reflexivity.
Qed.

Lemma transform_zero_norm (q : Quaternion.t) (v : Vector3.t) :
  norm_squared q = 0 -> Quaternion.transform q v = Raise ZeroDivisionError.
Proof.
  intros H. unfold Quaternion.transform. rewrite (inverse_zero_norm q H). reflexivity.
Qed.

Lemma conjugation_is_pure (q : Quaternion.t) (v : Vector3.t) :
  norm_squared q <> 0 ->
  Quaternion.multiply (Quaternion.multiply q (pure v)) (inverse_value q)
  = pure (transform_value q v).
Proof.
  intros H. unfold transform_value, vector_part, pure, inverse_value.
  apply quaternion_eq; simpl; try reflexivity.
  unfold norm_squared in *. field. exact H.
Qed.

Lemma transform_value_compose (a b : Quaternion.t) (v : Vector3.t) :
  norm_squared a <> 0 -> norm_squared b <> 0 ->
  transform_value (Quaternion.multiply a b) v
  = transform_value a (transform_value b v).
Proof.
  intros Ha Hb. unfold transform_value at 1 2.
  rewrite <- (conjugation_is_pure b v Hb).
  rewrite inverse_value_multiply by assumption.
  rewrite !multiply_assoc. reflexivity.
Qed.

Lemma transform_value_length (q : Quaternion.t) (v : Vector3.t) :
  norm_squared q <> 0 -> vlen (transform_value q v) = vlen v.
Proof.
  intros H. unfold vlen. f_equal.
  unfold transform_value, vector_part, pure, inverse_value, Quaternion.multiply; simpl.
  unfold norm_squared in *. field. exact H.
Qed.

Lemma transform_value_dot (q : Quaternion.t) (u v : Vector3.t) :
  norm_squared q <> 0 ->
  Vector3.dot (transform_value q u) (transform_value q v) = Vector3.dot u v.
Proof.
  intros H.
  unfold Vector3.dot, transform_value, vector_part, pure, inverse_value,
    Quaternion.multiply; simpl.
  unfold norm_squared in *. field. exact H.
Qed.

Lemma transform_value_cross (q : Quaternion.t) (u v : Vector3.t) :
  norm_squared q <> 0 ->
  transform_value q (Vector3.cross u v)
  = Vector3.cross (transform_value q u) (transform_value q v).
Proof.
  intros H.
  unfold Vector3.cross, transform_value, vector_part, pure, inverse_value,
    Quaternion.multiply; simpl.
  unfold norm_squared in *. f_equal; field; exact H.
Qed.

Lemma transform_value_add (q : Quaternion.t) (u v : Vector3.t) :
  transform_value q (Vector3.add u v)
  = Vector3.add (transform_value q u) (transform_value q v).
Proof.
  unfold transform_value, vector_part, pure, Quaternion.multiply, Vector3.add; simpl.
  f_equal; ring.
Qed.

Lemma transform_value_scale (q : Quaternion.t) (u : Vector3.t) (s : R) :
  transform_value q (Vector3.scale u s) = Vector3.scale (transform_value q u) s.
Proof.
  unfold transform_value, vector_part, pure, Quaternion.multiply, Vector3.scale; simpl.
  f_equal; ring.
Qed.

Lemma norm_squared_real (s : R) :
  s <> 0 -> norm_squared (Quaternion.new s 0 0 0) <> 0.
Proof. intros Hs. unfold norm_squared; simpl. nra. Qed.

Lemma transform_value_real (s : R) (v : Vector3.t) :
  s <> 0 -> transform_value (Quaternion.new s 0 0 0) v = v.
Proof.
  intros Hs.
  unfold transform_value, vector_part, pure, inverse_value, Quaternion.multiply,
    norm_squared; simpl.
  apply vector_eq; simpl; field; exact Hs.
Qed.

Lemma scale_as_multiply (q : Quaternion.t) (s : R) :
  Quaternion.scale q s = Quaternion.multiply (Quaternion.new s 0 0 0) q.
Proof. quaternion_ring. Qed.

Lemma norm_squared_scale (q : Quaternion.t) (s : R) :
  norm_squared (Quaternion.scale q s) = s * s * norm_squared q.
Proof. unfold norm_squared, Quaternion.scale; simpl. ring. Qed.

Lemma transform_value_scaled (q : Quaternion.t) (v : Vector3.t) (s : R) :
  norm_squared q <> 0 -> s <> 0 ->
  transform_value (Quaternion.scale q s) v = transform_value q v.
Proof.
  intros H Hs. rewrite scale_as_multiply.
  rewrite transform_value_compose by (try apply norm_squared_real; assumption).
  apply transform_value_real, Hs.
Qed.

(** X9: [transform] keeps lengths for every quaternion whose squared norm
    is not zero, unit or not: the true inverse is used, not the conjugate
    (exact arithmetic). *)
Theorem transform_preserves_length (q : Quaternion.t) (v : Vector3.t) :
  norm_squared q <> 0 ->
  exists r, Quaternion.transform q v = Ok r
    /\ Vector3.length r = Vector3.length v.
Proof.
  intros N. exists (transform_value q v). split; [apply transform_ok, N |].
  rewrite !length_ok, transform_value_length by exact N. reflexivity.
Qed.

(** At the non-unit quaternion (1,2,3,4) and the vector (1,0,0). *)
Lemma transform_preserves_length_witness :
  exists r, Quaternion.transform (Quaternion.new 1 2 3 4) (Vector3.new 1 0 0) = Ok r
    /\ Vector3.length r = Vector3.length (Vector3.new 1 0 0).
Proof.
  apply (transform_preserves_length (Quaternion.new 1 2 3 4) (Vector3.new 1 0 0)).
  unfold norm_squared; simpl. lra.
Defined.

(** X10: [transform] is an action of [multiply]: the identity quaternion leaves
    every vector where it is, and transforming by a product a b is
    transforming by b and then by a, errors included (if either factor is
    the zero quaternion both sides raise). *)
Theorem transform_composes (a b : Quaternion.t) (v : Vector3.t) :
  Quaternion.transform (Quaternion.new 1 0 0 0) v = Ok v
  /\ Quaternion.transform (Quaternion.multiply a b) v
     = (u <- Quaternion.transform b v ;; Quaternion.transform a u).
Proof.
  split.
  { rewrite transform_ok by (apply norm_squared_real; lra).
    rewrite transform_value_real by lra. reflexivity. }
  destruct (Req_dec_T (norm_squared b) 0) as [Eb | Nb].
  - rewrite (transform_zero_norm b v Eb). cbn [bind].
    apply transform_zero_norm. rewrite norm_squared_multiply, Eb. ring.
  - rewrite (transform_ok b v Nb). cbn [bind].
    destruct (Req_dec_T (norm_squared a) 0) as [Ea | Na].
    + rewrite (transform_zero_norm a _ Ea).
      apply transform_zero_norm. rewrite norm_squared_multiply, Ea. ring.
    + rewrite !transform_ok by (try apply multiply_nonzero; assumption).
      rewrite transform_value_compose by assumption. reflexivity.
Qed.

(** X11: For a non-zero quaternion [transform] is a linear map that keeps dot
    products and carries cross products to cross products: a rotation,
    never a reflection. *)
Theorem transform_is_rotation (q : Quaternion.t) (u v : Vector3.t) (s : R) :
  q <> Quaternion.new 0 0 0 0 ->
  exists tu tv,
    Quaternion.transform q u = Ok tu
    /\ Quaternion.transform q v = Ok tv
    /\ Quaternion.transform q (Vector3.add u v) = Ok (Vector3.add tu tv)
    /\ Quaternion.transform q (Vector3.scale u s) = Ok (Vector3.scale tu s)
    /\ Vector3.dot tu tv = Vector3.dot u v
    /\ Quaternion.transform q (Vector3.cross u v) = Ok (Vector3.cross tu tv).
Proof.
  intros Hq.
  assert (N : norm_squared q <> 0).
  { intros E. apply Hq, norm_squared_zero_iff, E. }
  exists (transform_value q u), (transform_value q v).
  rewrite !transform_ok by exact N.
  rewrite transform_value_add, transform_value_scale.
  rewrite transform_value_cross, transform_value_dot by exact N.
  repeat split.
Qed.

(** At q = (1,2,3,4). *)
Lemma transform_is_rotation_witness :
  exists tu tv,
    Quaternion.transform (Quaternion.new 1 2 3 4) (Vector3.new 1 0 0) = Ok tu
    /\ Quaternion.transform (Quaternion.new 1 2 3 4) (Vector3.new 0 1 0) = Ok tv
    /\ Quaternion.transform (Quaternion.new 1 2 3 4)
         (Vector3.add (Vector3.new 1 0 0) (Vector3.new 0 1 0))
       = Ok (Vector3.add tu tv)
    /\ Quaternion.transform (Quaternion.new 1 2 3 4) (Vector3.scale (Vector3.new 1 0 0) 5)
       = Ok (Vector3.scale tu 5)
    /\ Vector3.dot tu tv = Vector3.dot (Vector3.new 1 0 0) (Vector3.new 0 1 0)
    /\ Quaternion.transform (Quaternion.new 1 2 3 4)
         (Vector3.cross (Vector3.new 1 0 0) (Vector3.new 0 1 0))
       = Ok (Vector3.cross tu tv).
Proof.
  apply (transform_is_rotation (Quaternion.new 1 2 3 4)).
  intros E. injection E as E _ _ _. lra.
Defined.

(** X12: The rotation a quaternion stands for does not depend on its scale or
    its sign: [transform] by q scaled by any non-zero factor, and by the
    negation of q, is [transform] by q (both raise when q is zero). *)
Theorem transform_scale_invariant (q : Quaternion.t) (v : Vector3.t) (s : R) :
  s <> 0 ->
  Quaternion.transform (Quaternion.scale q s) v = Quaternion.transform q v
  /\ Quaternion.transform (negate q) v = Quaternion.transform q v.
Proof.
  assert (G : forall k, k <> 0 ->
            Quaternion.transform (Quaternion.scale q k) v = Quaternion.transform q v).
  { intros k Hk. destruct (Req_dec_T (norm_squared q) 0) as [E | N].
    - rewrite !transform_zero_norm; [reflexivity | exact E |].
      rewrite norm_squared_scale, E. ring.
    - rewrite !transform_ok; [| exact N |].
      + rewrite transform_value_scaled by assumption. reflexivity.
      + rewrite norm_squared_scale. apply Rmult_integral_contrapositive_currified; [nra | exact N]. }
  intros Hs. split; [apply G, Hs |].
  replace (negate q) with (Quaternion.scale q (-1)) by (unfold negate; quaternion_ring).
  apply G. lra.
Qed.

(** At q = (1,2,3,4) and the factor 3. *)
Lemma transform_scale_invariant_witness :
  Quaternion.transform (Quaternion.scale (Quaternion.new 1 2 3 4) 3) (Vector3.new 1 0 0)
  = Quaternion.transform (Quaternion.new 1 2 3 4) (Vector3.new 1 0 0)
  /\ Quaternion.transform (negate (Quaternion.new 1 2 3 4)) (Vector3.new 1 0 0)
     = Quaternion.transform (Quaternion.new 1 2 3 4) (Vector3.new 1 0 0).
Proof.
  apply (transform_scale_invariant (Quaternion.new 1 2 3 4) (Vector3.new 1 0 0) 3). lra.
Defined.

(** ** Quaternion.from_axis_angle *)

Lemma from_axis_angle_ok (axis : Vector3.t) (angle : R) :
  Vector3.is_zero axis = false ->
  Quaternion.from_axis_angle axis angle
  = Ok (Quaternion.new (cos (angle / 2))
          (Vector3.x (unit_direction axis) * sin (angle / 2))
          (Vector3.y (unit_direction axis) * sin (angle / 2))
          (Vector3.z (unit_direction axis) * sin (angle / 2))).
Proof.
  intros Hz. apply from_axis_angle_nonzero.
  pose proof (is_zero_false_vlen axis Hz). lra.
Qed.

Lemma from_axis_angle_zero_axis (axis : Vector3.t) (angle : R) :
  Vector3.is_zero axis = true ->
  Quaternion.from_axis_angle axis angle = Raise ZeroDivisionError.
Proof.
  intros Hz. apply vlen_zero_iff in Hz.
  unfold Quaternion.from_axis_angle. rewrite length_ok. cbn [bind].
  rewrite Hz, float_eqb_false by lra. cbn [negb].
  rewrite normalize_zero by exact Hz. reflexivity.
Qed.

Lemma unit_direction_dot (axis : Vector3.t) :
  Vector3.is_zero axis = false ->
  Vector3.x (unit_direction axis) * Vector3.x (unit_direction axis)
  + Vector3.y (unit_direction axis) * Vector3.y (unit_direction axis)
  + Vector3.z (unit_direction axis) * Vector3.z (unit_direction axis) = 1.
Proof.
  intros Hz. pose proof (is_zero_false_vlen axis Hz) as Hl.
  pose proof (vlen_unit_direction axis Hl) as Hu.
  pose proof (vlen_sqr (unit_direction axis)) as Hs.
  rewrite Hu in Hs. unfold Vector3.dot in Hs. lra.
Qed.

Lemma sin_cos_sqr (a : R) : cos a * cos a + sin a * sin a = 1.
Proof. pose proof (sin2_cos2 a) as H. unfold Rsqr in H. lra. Qed.

Lemma axis_quaternion_unit (n : Vector3.t) (a : R) :
  Vector3.x n * Vector3.x n + Vector3.y n * Vector3.y n + Vector3.z n * Vector3.z n = 1 ->
  norm_squared (Quaternion.new (cos a) (Vector3.x n * sin a)
                  (Vector3.y n * sin a) (Vector3.z n * sin a)) = 1.
Proof.
  intros Hn. unfold norm_squared; simpl.
  transitivity (cos a * cos a
                + (Vector3.x n * Vector3.x n + Vector3.y n * Vector3.y n
                   + Vector3.z n * Vector3.z n) * (sin a * sin a)); [ring |].
  rewrite Hn, Rmult_1_l. apply sin_cos_sqr.
Qed.

(** X13: on every non-zero axis, whatever its length, [from_axis_angle]
    returns a unit quaternion, and the same one for the axis scaled by any
    positive factor (exact arithmetic). *)
Theorem from_axis_angle_unit (axis : Vector3.t) (angle s : R) :
  Vector3.is_zero axis = false -> 0 < s ->
  exists q, Quaternion.from_axis_angle axis angle = Ok q
    /\ is_unit q
    /\ Quaternion.from_axis_angle (Vector3.scale axis s) angle = Ok q.
Proof.
  intros Hz Hs. eexists. split; [apply from_axis_angle_ok, Hz |].
  split.
  { apply is_unit_norm_squared, axis_quaternion_unit, unit_direction_dot, Hz. }
  pose proof (is_zero_false_vlen axis Hz) as Hl.
  assert (Hls : vlen (Vector3.scale axis s) = s * vlen axis).
  { rewrite vlen_scale, Rabs_pos_eq by lra. reflexivity. }
  rewrite from_axis_angle_nonzero by (rewrite Hls; nra).
  rewrite Hls. f_equal. apply quaternion_eq; simpl; try reflexivity; field; lra.
Qed.

(** At the axis (0,0,2) against (0,0,6). *)
Lemma from_axis_angle_unit_witness :
  exists q, Quaternion.from_axis_angle (Vector3.new 0 0 2) PI = Ok q
    /\ is_unit q
    /\ Quaternion.from_axis_angle (Vector3.scale (Vector3.new 0 0 2) 3) PI = Ok q.
Proof.
  apply (from_axis_angle_unit (Vector3.new 0 0 2) PI 3); [| lra].
  unfold Vector3.is_zero; simpl.
  rewrite (float_eqb_false 2 0) by lra. rewrite Bool.andb_false_r. reflexivity.
Defined.

Lemma rodrigues_half_angle (n v : Vector3.t) (h : R) :
  Vector3.x n * Vector3.x n + Vector3.y n * Vector3.y n + Vector3.z n * Vector3.z n = 1 ->
  vector_part
    (Quaternion.multiply
       (Quaternion.multiply
          (Quaternion.new (cos h) (Vector3.x n * sin h) (Vector3.y n * sin h)
             (Vector3.z n * sin h))
          (pure v))
       (Quaternion.conjugate
          (Quaternion.new (cos h) (Vector3.x n * sin h) (Vector3.y n * sin h)
             (Vector3.z n * sin h))))
  = rodrigues n v (2 * h).
Proof.
  intros Hn. pose proof (sin_cos_sqr h) as Hcs.
  unfold rodrigues. rewrite cos_2a, sin_2a.
  destruct n as [nx ny nz], v as [vx vy vz]. simpl in Hn.
  unfold vector_part, pure, Quaternion.multiply, Quaternion.conjugate,
    Vector3.add, Vector3.scale, Vector3.cross, Vector3.dot; simpl.
  generalize dependent (cos h). generalize dependent (sin h).
  intros s c Hcs. f_equal; nsatz.
Qed.

Lemma rodrigues_axis (n : Vector3.t) (l angle : R) :
  Vector3.x n * Vector3.x n + Vector3.y n * Vector3.y n + Vector3.z n * Vector3.z n = 1 ->
  rodrigues n (Vector3.scale n l) angle = Vector3.scale n l.
Proof.
  intros Hn. destruct n as [nx ny nz]. simpl in Hn.
  unfold rodrigues, Vector3.add, Vector3.scale, Vector3.cross, Vector3.dot; simpl.
  generalize (cos angle) (sin angle). intros c s. f_equal; nsatz.
Qed.

Lemma unit_direction_rescale (v : Vector3.t) :
  0 < vlen v -> Vector3.scale (unit_direction v) (vlen v) = v.
Proof.
  intros Hl. unfold unit_direction. vector_ring; field; lra.
Qed.

(** X14: [from_axis_angle] followed by [transform] is Rodrigues' rotation about
    the normalized axis by the full angle (the half angle is internal to
    the quaternion): the result is
    v cos(angle) + (n x v) sin(angle) + n (n . v) (1 - cos(angle)).
    In particular the axis itself is left where it is. *)
Theorem from_axis_angle_rotates (axis v : Vector3.t) (angle : R) :
  Vector3.is_zero axis = false ->
  exists q n,
    Quaternion.from_axis_angle axis angle = Ok q
    /\ Vector3.normalize axis = Ok n
    /\ Quaternion.transform q v = Ok (rodrigues n v angle)
    /\ Quaternion.transform q axis = Ok axis.
Proof.
  intros Hz. pose proof (is_zero_false_vlen axis Hz) as Hl.
  pose proof (unit_direction_dot axis Hz) as Hn.
  eexists. exists (unit_direction axis).
  split; [apply from_axis_angle_ok, Hz |].
  split; [apply normalize_ok, Hz |].
  assert (Hu : forall u,
             Quaternion.transform
               (Quaternion.new (cos (angle / 2))
                  (Vector3.x (unit_direction axis) * sin (angle / 2))
                  (Vector3.y (unit_direction axis) * sin (angle / 2))
                  (Vector3.z (unit_direction axis) * sin (angle / 2))) u
             = Ok (rodrigues (unit_direction axis) u angle)).
  { intros u. rewrite transform_unit
      by (apply is_unit_norm_squared, axis_quaternion_unit, Hn).
    rewrite rodrigues_half_angle by exact Hn.
    replace (2 * (angle / 2)) with angle by field. reflexivity. }
  split; [apply Hu |].
  rewrite Hu. rewrite <- (unit_direction_rescale axis Hl) at 2 3.
  rewrite rodrigues_axis by exact Hn. reflexivity.
Qed.

(** At the axis (0,0,2), the vector (1,0,0) and a quarter turn. *)
Lemma from_axis_angle_rotates_witness :
  exists q n,
    Quaternion.from_axis_angle (Vector3.new 0 0 2) (PI / 2) = Ok q
    /\ Vector3.normalize (Vector3.new 0 0 2) = Ok n
    /\ Quaternion.transform q (Vector3.new 1 0 0)
       = Ok (rodrigues n (Vector3.new 1 0 0) (PI / 2))
    /\ Quaternion.transform q (Vector3.new 0 0 2) = Ok (Vector3.new 0 0 2).
Proof.
  apply (from_axis_angle_rotates (Vector3.new 0 0 2) (Vector3.new 1 0 0) (PI / 2)).
  unfold Vector3.is_zero; simpl.
  rewrite (float_eqb_false 2 0) by lra. rewrite Bool.andb_false_r. reflexivity.
Defined.

(** A quarter turn about the z axis takes (1,0,0) to (0,1,0). *)
Example rodrigues_quarter_turn :
  rodrigues (Vector3.new 0 0 1) (Vector3.new 1 0 0) (PI / 2) = Vector3.new 0 1 0.
Proof.
  unfold rodrigues, Vector3.add, Vector3.scale, Vector3.cross, Vector3.dot; simpl.
  rewrite cos_PI2, sin_PI2. f_equal; ring.
Qed.

(** X15: Rotations about one axis add their angles: the product of the
    quaternions for the angles a and b is the quaternion for a + b, the
    angle 0 gives the identity, the opposite angle gives the conjugate, and
    a further full turn gives the negated quaternion (the same rotation). *)
Theorem from_axis_angle_same_axis (axis : Vector3.t) (a b : R) :
  Vector3.is_zero axis = false ->
  exists qa qb,
    Quaternion.from_axis_angle axis a = Ok qa
    /\ Quaternion.from_axis_angle axis b = Ok qb
    /\ Quaternion.from_axis_angle axis (a + b) = Ok (Quaternion.multiply qa qb)
    /\ Quaternion.from_axis_angle axis 0 = Ok identity
    /\ Quaternion.from_axis_angle axis (- a) = Ok (Quaternion.conjugate qa)
    /\ Quaternion.from_axis_angle axis (a + 2 * PI) = Ok (negate qa).
Proof.
  intros Hz. pose proof (unit_direction_dot axis Hz) as Hn.
  do 2 eexists. rewrite !from_axis_angle_ok by exact Hz.
  split; [reflexivity |]. split; [reflexivity |].
  destruct (unit_direction axis) as [nx ny nz]. simpl in Hn |- *.
  split; [| split; [| split]].
  - f_equal. replace ((a + b) / 2) with (a / 2 + b / 2) by field.
    rewrite cos_plus, sin_plus.
    generalize (cos (a / 2)) (sin (a / 2)) (cos (b / 2)) (sin (b / 2)).
    intros ca sa cb sb. unfold Quaternion.multiply; simpl. f_equal; nsatz.
  - f_equal. replace (0 / 2) with 0 by field. rewrite cos_0, sin_0.
    unfold identity. f_equal; ring.
  - f_equal. replace (- a / 2) with (- (a / 2)) by field.
    rewrite cos_neg, sin_neg. unfold Quaternion.conjugate; simpl. f_equal; ring.
  - f_equal. replace ((a + 2 * PI) / 2) with (a / 2 + PI) by field.
    rewrite neg_cos, neg_sin. unfold negate; simpl. f_equal; ring.
Qed.

(** At the axis (0,0,2) and the angles 1 and 2. *)
Lemma from_axis_angle_same_axis_witness :
  exists qa qb,
    Quaternion.from_axis_angle (Vector3.new 0 0 2) 1 = Ok qa
    /\ Quaternion.from_axis_angle (Vector3.new 0 0 2) 2 = Ok qb
    /\ Quaternion.from_axis_angle (Vector3.new 0 0 2) (1 + 2)
       = Ok (Quaternion.multiply qa qb)
    /\ Quaternion.from_axis_angle (Vector3.new 0 0 2) 0 = Ok identity
    /\ Quaternion.from_axis_angle (Vector3.new 0 0 2) (- 1) = Ok (Quaternion.conjugate qa)
    /\ Quaternion.from_axis_angle (Vector3.new 0 0 2) (1 + 2 * PI) = Ok (negate qa).
Proof.
  apply (from_axis_angle_same_axis (Vector3.new 0 0 2) 1 2).
  unfold Vector3.is_zero; simpl.
  rewrite (float_eqb_false 2 0) by lra. rewrite Bool.andb_false_r. reflexivity.
Defined.

(** ** Quaternion.power as fractional rotation *)

Lemma Rpower_one (e : R) : Rpower 1 e = 1.
Proof. unfold Rpower. rewrite ln_1, Rmult_0_r. apply exp_0. Qed.

Lemma axis_quaternion_vector_magnitude (n : Vector3.t) (a : R) :
  Vector3.x n * Vector3.x n + Vector3.y n * Vector3.y n + Vector3.z n * Vector3.z n = 1 ->
  0 <= sin a ->
  vector_magnitude (Quaternion.new (cos a) (Vector3.x n * sin a)
                      (Vector3.y n * sin a) (Vector3.z n * sin a)) = sin a.
Proof.
  intros Hn Hs. unfold vector_magnitude; simpl.
  replace (Vector3.x n * sin a * (Vector3.x n * sin a * 1)
           + Vector3.y n * sin a * (Vector3.y n * sin a * 1)
           + Vector3.z n * sin a * (Vector3.z n * sin a * 1))
    with ((Vector3.x n * Vector3.x n + Vector3.y n * Vector3.y n
           + Vector3.z n * Vector3.z n) * (sin a * sin a)) by ring.
  rewrite Hn, Rmult_1_l. apply sqrt_square, Hs.
Qed.

(** X16: Raising a rotation to a power multiplies its angle: for an angle in
    [0, 2 pi] whose half-angle sine is at least 1e-10,
    from_axis_angle(axis, angle).power(e) is from_axis_angle(axis, e angle).
    The powers 0, 1, 2 and 0.5 of the quarter turn checked in
    test_power_for_rotations are instances. *)
Theorem power_of_rotation (axis : Vector3.t) (angle e : R) :
  Vector3.is_zero axis = false ->
  0 <= angle <= 2 * PI -> 1e-10 <= sin (angle / 2) ->
  exists q,
    Quaternion.from_axis_angle axis angle = Ok q
    /\ Quaternion.power q e = Quaternion.from_axis_angle axis (e * angle).
Proof.
  intros Hz Ha Hs. pose proof (unit_direction_dot axis Hz) as Hn.
  eexists. rewrite !from_axis_angle_ok by exact Hz.
  split; [reflexivity |].
  set (n := unit_direction axis) in *.
  set (q := Quaternion.new (cos (angle / 2)) (Vector3.x n * sin (angle / 2))
              (Vector3.y n * sin (angle / 2)) (Vector3.z n * sin (angle / 2))).
  assert (Hnorm : norm q = 1)
    by (apply is_unit_norm_squared, axis_quaternion_unit, Hn).
  assert (Hvm : vector_magnitude q = sin (angle / 2))
    by (apply axis_quaternion_vector_magnitude; [exact Hn | lra]).
  assert (Hth : power_theta q = angle / 2).
  { unfold power_theta. rewrite Hnorm. unfold q; simpl.
    replace (cos (angle / 2) / 1) with (cos (angle / 2)) by field.
    apply acos_cos. lra. }
  rewrite power_past_guard by (rewrite Hnorm; lra).
  rewrite Hvm, float_ltb_false by exact Hs.
  unfold power_new_w, power_factor. rewrite Hnorm, Hvm, Hth, Rpower_one.
  replace (e * angle / 2) with (e * (angle / 2)) by field.
  pose proof (is_zero_false_vlen axis Hz) as Hl.
  f_equal. unfold q. apply quaternion_eq; simpl; field; split; lra.
Qed.

(** At the axis (0,0,1), the half turn and the exponent 1/2. *)
Lemma power_of_rotation_witness :
  exists q,
    Quaternion.from_axis_angle (Vector3.new 0 0 1) PI = Ok q
    /\ Quaternion.power q 0.5 = Quaternion.from_axis_angle (Vector3.new 0 0 1) (0.5 * PI).
Proof.
  apply (power_of_rotation (Vector3.new 0 0 1) PI 0.5).
  - unfold Vector3.is_zero; simpl.
    rewrite (float_eqb_false 1 0) by lra. rewrite Bool.andb_false_r. reflexivity.
  - pose proof PI_RGT_0. lra.
  - rewrite sin_PI2. lra.
Defined.

Lemma power_general (q : Quaternion.t) (e : R) :
  1e-10 <= norm q -> 1e-10 <= vector_magnitude q ->
  Quaternion.power q e
  = Ok (Quaternion.new (power_new_w q e)
          (Quaternion.x q * power_factor q e)
          (Quaternion.y q * power_factor q e)
          (Quaternion.z q * power_factor q e)).
Proof.
  intros Hn Hv. rewrite power_past_guard by exact Hn.
  rewrite float_ltb_false by exact Hv. reflexivity.
Qed.

Lemma power_value_multiply (q : Quaternion.t) (a b : R) :
  1e-10 <= vector_magnitude q ->
  Quaternion.multiply
    (Quaternion.new (power_new_w q a) (Quaternion.x q * power_factor q a)
       (Quaternion.y q * power_factor q a) (Quaternion.z q * power_factor q a))
    (Quaternion.new (power_new_w q b) (Quaternion.x q * power_factor q b)
       (Quaternion.y q * power_factor q b) (Quaternion.z q * power_factor q b))
  = Quaternion.new (power_new_w q (a + b)) (Quaternion.x q * power_factor q (a + b))
      (Quaternion.y q * power_factor q (a + b)) (Quaternion.z q * power_factor q (a + b)).
Proof.
  intros Hv. pose proof (vector_magnitude_sqr q) as Hm.
  unfold power_new_w, power_factor.
  rewrite Rpower_plus, !Rmult_plus_distr_r, cos_plus, sin_plus.
  set (m := vector_magnitude q) in *.
  assert (Hi : m * / m = 1) by (field; lra).
  unfold Rdiv. generalize dependent (/ m). intros im Hi.
  generalize (Rpower (norm q) a) (Rpower (norm q) b)
    (cos (a * power_theta q)) (sin (a * power_theta q))
    (cos (b * power_theta q)) (sin (b * power_theta q)).
  intros na nb ca sa cb sb.
  destruct q as [qw qx qy qz]. simpl in Hm |- *.
  unfold Quaternion.multiply; simpl. f_equal; nsatz.
Qed.

(** X17: Powers of one quaternion multiply by adding exponents, and therefore
    commute: when the norm and the vector part are both at least 1e-10,
    q.power(a) * q.power(b) is q.power(a + b). *)
Theorem power_adds_exponents (q : Quaternion.t) (a b : R) :
  1e-10 <= norm q -> 1e-10 <= vector_magnitude q ->
  exists qa qb,
    Quaternion.power q a = Ok qa
    /\ Quaternion.power q b = Ok qb
    /\ Quaternion.power q (a + b) = Ok (Quaternion.multiply qa qb)
    /\ Quaternion.multiply qa qb = Quaternion.multiply qb qa.
Proof.
  intros Hn Hv. do 2 eexists. rewrite !power_general by assumption.
  split; [reflexivity |]. split; [reflexivity |].
  rewrite !power_value_multiply by exact Hv.
  split; [reflexivity |]. rewrite (Rplus_comm b a). reflexivity.
Qed.

(** At the quaternion (0,0,2,0) and the exponents 1/2 and 3. *)
Lemma power_adds_exponents_witness :
  exists qa qb,
    Quaternion.power (Quaternion.new 0 0 2 0) 0.5 = Ok qa
    /\ Quaternion.power (Quaternion.new 0 0 2 0) 3 = Ok qb
    /\ Quaternion.power (Quaternion.new 0 0 2 0) (0.5 + 3) = Ok (Quaternion.multiply qa qb)
    /\ Quaternion.multiply qa qb = Quaternion.multiply qb qa.
Proof.
  apply (power_adds_exponents (Quaternion.new 0 0 2 0) 0.5 3).
  - rewrite norm_0_0_2_0. lra.
  - rewrite vector_magnitude_0_0_2_0. lra.
Defined.

Lemma norm_power_value (q : Quaternion.t) (e : R) :
  1e-10 <= vector_magnitude q ->
  norm (Quaternion.new (power_new_w q e)
          (Quaternion.x q * power_factor q e)
          (Quaternion.y q * power_factor q e)
          (Quaternion.z q * power_factor q e))
  = Rpower (norm q) e.
Proof.
  intros Hv. pose proof (vector_magnitude_sqr q) as Hm.
  assert (Hp : 0 < Rpower (norm q) e) by (unfold Rpower; apply exp_pos).
  unfold norm at 1. apply sqrt_lem_1; [apply norm_squared_nonneg | lra |].
  unfold norm_squared; simpl. unfold power_new_w, power_factor.
  pose proof (sin_cos_sqr (e * power_theta q)) as Hcs.
  set (m := vector_magnitude q) in *.
  assert (Hi : m * / m = 1) by (field; lra).
  unfold Rdiv. generalize dependent (/ m). intros im Hi.
  generalize dependent (cos (e * power_theta q)).
  generalize dependent (sin (e * power_theta q)).
  generalize dependent (Rpower (norm q) e).
  intros p _ s c Hcs.
  destruct q as [qw qx qy qz]. simpl in Hm |- *. nsatz.
Qed.

(** X18: The norm of a power is the power of the norm: when the norm and the
    vector part are both at least 1e-10, |q.power(e)| = |q|^e.  A power of
    a unit quaternion is a unit quaternion. *)
Theorem power_norm (q : Quaternion.t) (e : R) :
  1e-10 <= norm q -> 1e-10 <= vector_magnitude q ->
  exists r,
    Quaternion.power q e = Ok r
    /\ norm r = Rpower (norm q) e
    /\ (is_unit q -> is_unit r).
Proof.
  intros Hn Hv. eexists. split; [apply power_general; assumption |].
  split; [apply norm_power_value, Hv |].
  unfold is_unit. intros Hu. rewrite norm_power_value, Hu by exact Hv.
  apply Rpower_one.
Qed.

(** At the unit quaternion i and the exponent 3. *)
Lemma power_norm_witness :
  exists r,
    Quaternion.power qi 3 = Ok r
    /\ norm r = Rpower (norm qi) 3
    /\ is_unit r.
Proof.
  assert (H1 : 1e-10 <= norm qi) by (rewrite is_unit_qi; lra).
  assert (H2 : 1e-10 <= vector_magnitude qi) by (rewrite vector_magnitude_qi; lra).
  destruct (power_norm qi 3 H1 H2) as (r & Hr & Hn & Hu).
  exists r. split; [exact Hr |]. split; [exact Hn |]. apply Hu, is_unit_qi.
Defined.

(** ** get_rotation_axis_and_angle *)

(** X19: The extraction never raises, whatever quaternion it is given (unit or
    not): past the |w| > 0.9999 guard, acos is applied inside its domain
    and the square root is of a positive number.  The angle it returns lies
    in [0, 2 pi]. *)
Theorem axis_angle_never_raises (q : Quaternion.t) :
  exists axis angle,
    get_rotation_axis_and_angle q = Ok (axis, angle)
    /\ 0 <= angle <= 2 * PI.
Proof.
  destruct (Rgt_dec (Rabs (Quaternion.w q)) 0.9999) as [G | L].
  - do 2 eexists. split; [apply axis_angle_sentinel, G |].
    pose proof PI_RGT_0. lra.
  - do 2 eexists. split; [apply axis_angle_computed; lra |].
    pose proof (acos_bound (Quaternion.w q)). lra.
Qed.

(** X20: Extraction followed by construction gives the quaternion back: for a
    unit quaternion with |w| <= 0.9999 the axis returned has length exactly
    1, the angle lies strictly between 0 and 2 pi, and
    from_axis_angle(axis, angle) is the quaternion itself. *)
Theorem axis_angle_rebuilds (q : Quaternion.t) :
  is_unit q -> Rabs (Quaternion.w q) <= 0.9999 ->
  exists axis angle,
    get_rotation_axis_and_angle q = Ok (axis, angle)
    /\ Vector3.length axis = Ok 1
    /\ 0 < angle < 2 * PI
    /\ Quaternion.from_axis_angle axis angle = Ok q.
Proof.
  intros Hu Hw. apply is_unit_norm_squared in Hu. unfold norm_squared in Hu.
  do 2 eexists. split; [apply axis_angle_computed, Hw |].
  assert (Hr : -0.9999 <= Quaternion.w q <= 0.9999).
  { unfold Rabs in Hw. destruct (Rcase_abs (Quaternion.w q)); lra. }
  set (s := sqrt (1 - Quaternion.w q * Quaternion.w q)).
  assert (Hp : 0 < 1 - Quaternion.w q * Quaternion.w q) by nra.
  assert (Hs : 0 < s) by (apply sqrt_lt_R0, Hp).
  assert (Hss : s * s = 1 - Quaternion.w q * Quaternion.w q)
    by (apply sqrt_sqrt; lra).
  assert (Hlen : vlen (Vector3.new (Quaternion.x q / s) (Quaternion.y q / s)
                         (Quaternion.z q / s)) = 1).
  { unfold vlen; simpl. rewrite <- sqrt_1. f_equal.
    apply Rmult_eq_reg_r with (s * s); [| nra].
    transitivity (Quaternion.x q ^ 2 + Quaternion.y q ^ 2 + Quaternion.z q ^ 2);
      [field; lra | nra]. }
  split; [rewrite length_ok, Hlen; reflexivity |].
  split.
  { pose proof (acos_bound_lt (Quaternion.w q)) as Hb. lra. }
  unfold Quaternion.from_axis_angle. rewrite length_ok, Hlen. cbn [bind].
  rewrite float_eqb_true by reflexivity. cbn [negb bind].
  replace (2 * acos (Quaternion.w q) / 2) with (acos (Quaternion.w q)) by field.
  rewrite cos_acos, sin_acos by lra.
  unfold Rsqr. fold s. f_equal. apply quaternion_eq; simpl; try reflexivity; field; lra.
Qed.

(** At the unit quaternion i. *)
Lemma axis_angle_rebuilds_witness :
  exists axis angle,
    get_rotation_axis_and_angle qi = Ok (axis, angle)
    /\ Vector3.length axis = Ok 1
    /\ 0 < angle < 2 * PI
    /\ Quaternion.from_axis_angle axis angle = Ok qi.
Proof.
  apply (axis_angle_rebuilds qi is_unit_qi).
  unfold qi; simpl. rewrite Rabs_R0. lra.
Defined.

(** ** slerp: both path modes *)

Lemma slerp_shortest_as_long (q1 q2 : Quaternion.t) (t : R) :
  slerp q1 q2 t true = slerp q1 (slerp_target q1 q2) t false.
Proof. reflexivity. Qed.

Lemma slerp_long_unit_start (q1 q2 : Quaternion.t) (t : R) :
  is_unit q1 ->
  slerp q1 q2 t false
  = (fraction_rotation <-
       Quaternion.power (Quaternion.multiply q2 (Quaternion.conjugate q1)) t ;;
     Ok (Quaternion.multiply fraction_rotation q1)).
Proof.
  intros Hu. unfold slerp. rewrite (inverse_unit q1 Hu). reflexivity.
Qed.

Lemma norm_relative_rotation (q1 q2 : Quaternion.t) :
  is_unit q1 -> is_unit q2 ->
  norm (Quaternion.multiply q2 (Quaternion.conjugate q1)) = 1.
Proof.
  intros H1 H2. apply is_unit_norm_squared in H1, H2.
  apply is_unit_norm_squared.
  rewrite norm_squared_multiply, norm_squared_conjugate, H1, H2. ring.
Qed.

Lemma vector_magnitude_relative_rotation (q1 q2 : Quaternion.t) :
  is_unit q1 -> is_unit q2 ->
  vector_magnitude (Quaternion.multiply q2 (Quaternion.conjugate q1))
  = sqrt (1 - dot q1 q2 ^ 2).
Proof.
  intros H1 H2. apply is_unit_norm_squared in H1, H2.
  unfold vector_magnitude. f_equal. unfold norm_squared in *.
  transitivity ((Quaternion.w q2 ^ 2 + Quaternion.x q2 ^ 2
                 + Quaternion.y q2 ^ 2 + Quaternion.z q2 ^ 2)
                * (Quaternion.w q1 ^ 2 + Quaternion.x q1 ^ 2
                   + Quaternion.y q1 ^ 2 + Quaternion.z q1 ^ 2)
                - dot q1 q2 ^ 2).
  - unfold dot; simpl. ring.
  - rewrite H1, H2. ring.
Qed.

Lemma relative_rotation_general (q1 q2 : Quaternion.t) :
  is_unit q1 -> is_unit q2 -> dot q1 q2 ^ 2 <= 1 - 1e-20 ->
  1e-10 <= vector_magnitude (Quaternion.multiply q2 (Quaternion.conjugate q1)).
Proof.
  intros H1 H2 Hd. rewrite vector_magnitude_relative_rotation by assumption.
  replace 1e-10 with (sqrt (1e-10 * 1e-10)) by (apply sqrt_square; lra).
  apply sqrt_le_1_alt. lra.
Qed.

Lemma is_unit_slerp_target (q1 q2 : Quaternion.t) :
  is_unit q2 -> is_unit (slerp_target q1 q2).
Proof.
  intros H. apply is_unit_norm_squared. rewrite norm_squared_slerp_target.
  apply is_unit_norm_squared, H.
Qed.

Lemma dot_slerp_target_sqr (q1 q2 : Quaternion.t) :
  dot q1 (slerp_target q1 q2) ^ 2 = dot q1 q2 ^ 2.
Proof.
  unfold slerp_target. destruct (float_ltb (dot q1 q2) 0); [| reflexivity].
  unfold dot, negate; simpl. ring.
Qed.

(** X21: With shortestPath = false nothing is negated: for unit q1 and q2,
    slerp(q1, q2, 0, false) is q1, and slerp(q1, q2, 1, false) is q2
    whatever the sign of the dot product, provided the vector part of the
    relative rotation is exactly zero or at least 1e-10 long. *)
Theorem slerp_long_path_boundary (q1 q2 : Quaternion.t) :
  is_unit q1 -> is_unit q2 ->
  slerp q1 q2 0 false = Ok q1
  /\ (dot q1 q2 ^ 2 = 1 \/ dot q1 q2 ^ 2 <= 1 - 1e-20 ->
      slerp q1 q2 1 false = Ok q2).
Proof.
  intros H1 H2. rewrite !slerp_long_unit_start by exact H1.
  pose proof (norm_relative_rotation q1 q2 H1 H2) as Hn.
  split.
  - rewrite power_0 by lra. cbn [bind]. rewrite multiply_identity_l. reflexivity.
  - intros Hd. rewrite power_1.
    + cbn [bind]. rewrite multiply_conjugate_cancel; [reflexivity |].
      apply is_unit_norm_squared, H1.
    + lra.
    + destruct Hd as [E | L].
      * left. rewrite vector_magnitude_relative_rotation by assumption.
        rewrite E. replace (1 - 1) with 0 by ring. apply sqrt_0.
      * right. apply relative_rotation_general; assumption.
Qed.

(** At q1 = (1,0,0,0), q2 = (-1,0,0,0), of dot product -1: the long path
    ends on q2 itself. *)
Lemma slerp_long_path_boundary_witness :
  slerp identity (Quaternion.new (-1) 0 0 0) 0 false = Ok identity
  /\ slerp identity (Quaternion.new (-1) 0 0 0) 1 false = Ok (Quaternion.new (-1) 0 0 0).
Proof.
  split.
  - apply (proj1 (slerp_long_path_boundary identity (Quaternion.new (-1) 0 0 0)
                    is_unit_identity is_unit_minus_identity)).
  - apply (proj2 (slerp_long_path_boundary identity (Quaternion.new (-1) 0 0 0)
                    is_unit_identity is_unit_minus_identity)).
    left. unfold dot, identity; simpl. ring.
Defined.

(** X22: With shortestPath = true the sign of the end point does not matter:
    when the dot product is not zero, slerp towards -q2 is slerp towards
    q2 at every t, errors included. *)
Theorem slerp_sign_invariant (q1 q2 : Quaternion.t) (t : R) :
  dot q1 q2 <> 0 ->
  slerp q1 (negate q2) t true = slerp q1 q2 t true.
Proof.
  intros Hd. rewrite !slerp_shortest_as_long. f_equal.
  assert (Hneg : dot q1 (negate q2) = - dot q1 q2)
    by (unfold dot, negate; simpl; ring).
  unfold slerp_target. rewrite Hneg.
  destruct (Rlt_dec (dot q1 q2) 0) as [L | G].
  - rewrite (float_ltb_true (dot q1 q2)) by exact L.
    rewrite float_ltb_false by lra. reflexivity.
  - rewrite (float_ltb_false (dot q1 q2)) by lra.
    rewrite float_ltb_true by lra. unfold negate. quaternion_ring.
Qed.

(** At q1 = i and q2 = (0, 3/5, 4/5, 0). *)
Lemma slerp_sign_invariant_witness :
  slerp qi (negate (Quaternion.new 0 (3 / 5) (4 / 5) 0)) (1 / 3) true
  = slerp qi (Quaternion.new 0 (3 / 5) (4 / 5) 0) (1 / 3) true.
Proof.
  apply (slerp_sign_invariant qi (Quaternion.new 0 (3 / 5) (4 / 5) 0) (1 / 3)).
  unfold dot, qi; simpl. lra.
Defined.

(** X23: slerp stays on the unit sphere: for unit q1 and q2 whose relative
    rotation has a vector part at least 1e-10 long
    (dot(q1,q2)^2 <= 1 - 1e-20), the result is a unit quaternion for every
    t, in either path mode. *)
Theorem slerp_unit (q1 q2 : Quaternion.t) (t : R) (shortestPath : bool) :
  is_unit q1 -> is_unit q2 -> dot q1 q2 ^ 2 <= 1 - 1e-20 ->
  exists r, slerp q1 q2 t shortestPath = Ok r /\ is_unit r.
Proof.
  intros H1 H2 Hd.
  assert (G : forall a, is_unit a -> dot q1 a ^ 2 <= 1 - 1e-20 ->
              exists r, slerp q1 a t false = Ok r /\ is_unit r).
  { intros a Ha Hda. rewrite slerp_long_unit_start by exact H1.
    pose proof (norm_relative_rotation q1 a H1 Ha) as Hn.
    pose proof (relative_rotation_general q1 a H1 Ha Hda) as Hv.
    rewrite power_general by (try rewrite Hn; lra). cbn [bind].
    eexists. split; [reflexivity |].
    apply is_unit_norm_squared. rewrite norm_squared_multiply.
    rewrite <- !norm_sqr, norm_power_value, Hn, Rpower_one, H1 by exact Hv. ring. }
  destruct shortestPath.
  - rewrite slerp_shortest_as_long. apply G.
    + apply is_unit_slerp_target, H2.
    + rewrite dot_slerp_target_sqr. exact Hd.
  - apply G; assumption.
Qed.

(** At q1 = i, q2 = j and t = 1/3. *)
Lemma slerp_unit_witness :
  exists r, slerp qi qj (1 / 3) true = Ok r /\ is_unit r.
Proof.
  apply (slerp_unit qi qj (1 / 3) true is_unit_qi is_unit_qj).
  unfold dot, qi, qj; simpl. lra.
Defined.

Lemma vector_magnitude_real (a : R) : vector_magnitude (Quaternion.new a 0 0 0) = 0.
Proof.
  unfold vector_magnitude; simpl.
  replace (0 * (0 * 1) + 0 * (0 * 1) + 0 * (0 * 1)) with 0 by ring.
  apply sqrt_0.
Qed.

Lemma acos_minus_1 : acos (-1) = PI.
Proof. replace (-1) with (Ropp 1) by lra. rewrite acos_opp, acos_1. ring. Qed.

Lemma power_identity (e : R) : Quaternion.power (Quaternion.new 1 0 0 0) e = Ok identity.
Proof.
  change (Quaternion.new 1 0 0 0) with identity.
  rewrite power_past_guard by (rewrite norm_identity; lra).
  rewrite vector_magnitude_identity, float_ltb_true by lra.
  unfold power_new_w, power_theta. rewrite norm_identity, Rpower_one. simpl.
  replace (1 / 1) with 1 by field. rewrite acos_1, Rmult_0_r, cos_0.
  unfold identity. f_equal. f_equal. ring.
Qed.

Lemma power_minus_identity (e : R) :
  Quaternion.power (Quaternion.new (-1) 0 0 0) e
  = Ok (Quaternion.new (cos (e * PI)) 0 0 0).
Proof.
  pose proof is_unit_minus_identity as Hu. unfold is_unit in Hu.
  rewrite power_past_guard by (rewrite Hu; lra).
  rewrite vector_magnitude_real, float_ltb_true by lra.
  unfold power_new_w, power_theta. rewrite Hu, Rpower_one. simpl.
  replace (-1 / 1) with (-1) by field. rewrite acos_minus_1.
  f_equal. f_equal. ring.
Qed.

Lemma multiply_conjugate_self (q : Quaternion.t) :
  is_unit q -> Quaternion.multiply q (Quaternion.conjugate q) = Quaternion.new 1 0 0 0.
Proof.
  intros Hu. apply is_unit_norm_squared in Hu. rewrite <- Hu.
  unfold norm_squared. quaternion_ring.
Qed.

Lemma multiply_negate_conjugate_self (q : Quaternion.t) :
  is_unit q ->
  Quaternion.multiply (negate q) (Quaternion.conjugate q) = Quaternion.new (-1) 0 0 0.
Proof.
  intros Hu. apply is_unit_norm_squared in Hu.
  replace (-1) with (- norm_squared q) by lra.
  unfold norm_squared, negate. quaternion_ring.
Qed.

(** X25: Coincident and antipodal end points.  For a unit quaternion q, slerp
    from q to q is q at every t in either mode, and so is slerp from q to
    -q on the shortest path.  On the long path from q to -q nothing
    rotates: the result is q scaled by cos(t pi), which is the zero
    quaternion at t = 1/2. *)
Theorem slerp_same_rotation (q : Quaternion.t) (t : R) :
  is_unit q ->
  slerp q q t true = Ok q
  /\ slerp q q t false = Ok q
  /\ slerp q (negate q) t true = Ok q
  /\ slerp q (negate q) t false = Ok (Quaternion.scale q (cos (t * PI)))
  /\ slerp q (negate q) (1 / 2) false = Ok (Quaternion.new 0 0 0 0).
Proof.
  intros Hu. pose proof Hu as Hn. apply is_unit_norm_squared in Hn.
  assert (Hqq : dot q q = 1) by (unfold dot; unfold norm_squared in Hn; lra).
  assert (Hsame : slerp q q t false = Ok q).
  { rewrite slerp_long_unit_start by exact Hu.
    rewrite multiply_conjugate_self, power_identity by exact Hu.
    cbn [bind]. rewrite multiply_identity_l. reflexivity. }
  assert (Hanti : forall u, slerp q (negate q) u false
                            = Ok (Quaternion.scale q (cos (u * PI)))).
  { intros u. rewrite slerp_long_unit_start by exact Hu.
    rewrite multiply_negate_conjugate_self, power_minus_identity by exact Hu.
    cbn [bind]. f_equal. unfold Quaternion.scale. quaternion_ring. }
  split.
  { rewrite slerp_shortest_as_long, slerp_target_nonneg by lra. exact Hsame. }
  split; [exact Hsame |].
  split.
  { rewrite slerp_shortest_as_long.
    rewrite slerp_target_neg by (unfold dot, negate in *; simpl; lra).
    replace (negate (negate q)) with q by (unfold negate; quaternion_ring).
    exact Hsame. }
  split; [apply Hanti |].
  rewrite Hanti. replace (1 / 2 * PI) with (PI / 2) by field. rewrite cos_PI2.
  f_equal. unfold Quaternion.scale. quaternion_ring.
Qed.

(** At q = i and t = 1/3. *)
Lemma slerp_same_rotation_witness :
  slerp qi qi (1 / 3) true = Ok qi
  /\ slerp qi qi (1 / 3) false = Ok qi
  /\ slerp qi (negate qi) (1 / 3) true = Ok qi
  /\ slerp qi (negate qi) (1 / 3) false = Ok (Quaternion.scale qi (cos (1 / 3 * PI)))
  /\ slerp qi (negate qi) (1 / 2) false = Ok (Quaternion.new 0 0 0 0).
Proof.
  exact (slerp_same_rotation qi (1 / 3) is_unit_qi).
Defined.

(** ** calculate_rotation_between_points *)

Lemma norm_squared_pure (p : Vector3.t) : norm_squared (pure p) = Vector3.dot p p.
Proof. unfold norm_squared, pure, Vector3.dot; simpl. ring. Qed.

Lemma is_unit_pure (p : Vector3.t) : vlen p = 1 -> is_unit (pure p).
Proof.
  intros H. apply is_unit_norm_squared.
  rewrite norm_squared_pure, <- vlen_sqr, H. ring.
Qed.

Lemma dot_pure (p1 p2 : Vector3.t) : dot (pure p1) (pure p2) = Vector3.dot p1 p2.
Proof. unfold dot, pure, Vector3.dot; simpl. ring. Qed.

Lemma vector_part_pure (p : Vector3.t) : vector_part (pure p) = p.
Proof. destruct p; reflexivity. Qed.

Lemma calculate_rotation_unfold (p1 p2 : Vector3.t) :
  calculate_rotation_between_points p1 p2
  = Quaternion.power (Quaternion.multiply (pure p2) (Quaternion.conjugate (pure p1))) 0.5.
Proof. reflexivity. Qed.

(** A quaternion whose vector part is perpendicular to p passes through
    the pure quaternion of p by conjugation. *)
Lemma perpendicular_commute (r : Quaternion.t) (p : Vector3.t) :
  Quaternion.x r * Vector3.x p + Quaternion.y r * Vector3.y p
  + Quaternion.z r * Vector3.z p = 0 ->
  Quaternion.multiply (pure p) (Quaternion.conjugate r)
  = Quaternion.multiply r (pure p).
Proof.
  intros H. destruct r as [rw rx ry rz], p as [px py pz]. simpl in H.
  unfold pure, Quaternion.multiply, Quaternion.conjugate; simpl.
  f_equal; nsatz.
Qed.

(** X26: The trackball rotation carries the first point to the second: for two
    points of the unit sphere that are neither equal nor opposite up to
    1e-10 ((p1 . p2)^2 <= 1 - 1e-20), the quaternion returned is a unit
    quaternion whose square is (0,p2) (0,p1)* and whose [transform] sends
    p1 to p2. *)
Theorem calculate_rotation_carries (p1 p2 : Vector3.t) :
  Vector3.length p1 = Ok 1 -> Vector3.length p2 = Ok 1 ->
  Vector3.dot p1 p2 ^ 2 <= 1 - 1e-20 ->
  exists r,
    calculate_rotation_between_points p1 p2 = Ok r
    /\ is_unit r
    /\ Quaternion.multiply r r
       = Quaternion.multiply (pure p2) (Quaternion.conjugate (pure p1))
    /\ Quaternion.transform r p1 = Ok p2.
Proof.
  intros H1 H2 Hd. rewrite length_ok in H1, H2.
  injection H1 as H1. injection H2 as H2.
  pose proof (is_unit_pure p1 H1) as U1. pose proof (is_unit_pure p2 H2) as U2.
  rewrite calculate_rotation_unfold.
  set (rot := Quaternion.multiply (pure p2) (Quaternion.conjugate (pure p1))).
  assert (Hn : norm rot = 1) by (apply norm_relative_rotation; assumption).
  assert (Hv : 1e-10 <= vector_magnitude rot).
  { apply relative_rotation_general; try assumption. rewrite dot_pure. exact Hd. }
  rewrite power_general by (try rewrite Hn; lra).
  set (r := Quaternion.new (power_new_w rot 0.5)
              (Quaternion.x rot * power_factor rot 0.5)
              (Quaternion.y rot * power_factor rot 0.5)
              (Quaternion.z rot * power_factor rot 0.5)).
  assert (Hr : is_unit r).
  { unfold is_unit, r. rewrite norm_power_value, Hn by exact Hv. apply Rpower_one. }
  assert (Hrr : Quaternion.multiply r r = rot).
  { unfold r. rewrite power_value_multiply by exact Hv.
    replace (0.5 + 0.5) with 1 by lra.
    assert (E : Quaternion.power rot 1 = Ok rot)
      by (apply power_1; [rewrite Hn; lra | right; exact Hv]).
    rewrite power_general in E by (try rewrite Hn; lra).
    injection E as Ew Ex Ey Ez. apply quaternion_eq; simpl; assumption. }
  exists r. split; [reflexivity |]. split; [exact Hr |]. split; [exact Hrr |].
  rewrite transform_unit by exact Hr.
  assert (Hperp : Quaternion.x r * Vector3.x p1 + Quaternion.y r * Vector3.y p1
                  + Quaternion.z r * Vector3.z p1 = 0).
  { unfold r, rot, pure, Quaternion.multiply, Quaternion.conjugate; simpl. ring. }
  rewrite multiply_assoc, (perpendicular_commute r p1 Hperp).
  rewrite <- multiply_assoc, Hrr. unfold rot.
  rewrite multiply_conjugate_cancel by (apply is_unit_norm_squared, U1).
  rewrite vector_part_pure. reflexivity.
Qed.

(** At the points (1,0,0) and (0,1,0). *)
Lemma calculate_rotation_carries_witness :
  exists r,
    calculate_rotation_between_points (Vector3.new 1 0 0) (Vector3.new 0 1 0) = Ok r
    /\ is_unit r
    /\ Quaternion.multiply r r
       = Quaternion.multiply (pure (Vector3.new 0 1 0))
           (Quaternion.conjugate (pure (Vector3.new 1 0 0)))
    /\ Quaternion.transform r (Vector3.new 1 0 0) = Ok (Vector3.new 0 1 0).
Proof.
  apply (calculate_rotation_carries (Vector3.new 1 0 0) (Vector3.new 0 1 0)).
  - rewrite length_ok. f_equal. unfold vlen; simpl.
    replace (1 * 1 + 0 * 0 + 0 * 0) with 1 by ring. apply sqrt_1.
  - rewrite length_ok. f_equal. unfold vlen; simpl.
    replace (0 * 0 + 1 * 1 + 0 * 0) with 1 by ring. apply sqrt_1.
  - unfold Vector3.dot; simpl. lra.
Defined.

(** X27: the two degenerate drags, in exact arithmetic.  For a point p
    of the unit sphere, the rotation from p to p is the identity; the
    rotation from p to its opposite is (cos(pi/2), 0, 0, 0), the zero
    quaternion, which is not a rotation. *)
Theorem calculate_rotation_degenerate (p : Vector3.t) :
  Vector3.length p = Ok 1 ->
  calculate_rotation_between_points p p = Ok identity
  /\ calculate_rotation_between_points p (Vector3.inverse p)
     = Ok (Quaternion.new (cos (PI / 2)) 0 0 0)
  /\ calculate_rotation_between_points p (Vector3.inverse p)
     = Ok (Quaternion.new 0 0 0 0).
Proof.
  intros H. rewrite length_ok in H. injection H as H.
  pose proof (is_unit_pure p H) as U.
  assert (Ha : calculate_rotation_between_points p (Vector3.inverse p)
               = Ok (Quaternion.new (cos (PI / 2)) 0 0 0)).
  { rewrite calculate_rotation_unfold.
    replace (pure (Vector3.inverse p)) with (negate (pure p))
      by (unfold negate, pure, Vector3.inverse; quaternion_ring).
    rewrite multiply_negate_conjugate_self, power_minus_identity by exact U.
    replace (0.5 * PI) with (PI / 2) by lra. reflexivity. }
  split.
  { rewrite calculate_rotation_unfold.
    rewrite multiply_conjugate_self by exact U. apply power_identity. }
  split; [exact Ha |].
  rewrite Ha, cos_PI2. reflexivity.
Qed.

(** At the point (1,0,0). *)
Lemma calculate_rotation_degenerate_witness :
  calculate_rotation_between_points (Vector3.new 1 0 0) (Vector3.new 1 0 0) = Ok identity
  /\ calculate_rotation_between_points (Vector3.new 1 0 0)
       (Vector3.inverse (Vector3.new 1 0 0)) = Ok (Quaternion.new (cos (PI / 2)) 0 0 0)
  /\ calculate_rotation_between_points (Vector3.new 1 0 0)
       (Vector3.inverse (Vector3.new 1 0 0)) = Ok (Quaternion.new 0 0 0 0).
Proof.
  apply (calculate_rotation_degenerate (Vector3.new 1 0 0)).
  rewrite length_ok. f_equal. unfold vlen; simpl.
  replace (1 * 1 + 0 * 0 + 0 * 0) with 1 by ring. apply sqrt_1.
Defined.

(** ** project_on_sphere *)

Lemma float_leb_true (a b : R) : a <= b -> float_leb a b = true.
Proof.
  intros H. unfold float_leb. destruct (Rle_dec a b); [reflexivity | contradiction].
Qed.

Lemma float_leb_false (a b : R) : b < a -> float_leb a b = false.
Proof.
  intros H. unfold float_leb. destruct (Rle_dec a b); [lra | reflexivity].
Qed.

Lemma project_on_sphere_zero_height (touch_x touch_y width r : R) :
  project_on_sphere touch_x touch_y width 0 r = Raise ZeroDivisionError.
Proof. unfold project_on_sphere. rewrite float_div_zero. reflexivity. Qed.

Lemma project_on_sphere_inside (touch_x touch_y width height r : R) :
  height <> 0 ->
  let x := (touch_x - width / 2) / height in
  let y := - (touch_y - height / 2) / height in
  x ^ 2 + y ^ 2 <= r * r / 2 ->
  project_on_sphere touch_x touch_y width height r
  = Vector3.normalize (Vector3.new x y (sqrt (r * r - (x ^ 2 + y ^ 2)))).
Proof.
  intros Hh x y Hd. unfold project_on_sphere.
  rewrite !float_div_ok by exact Hh. cbn [bind]. fold x y.
  rewrite float_leb_true by exact Hd.
  rewrite math_sqrt_ok by nra. reflexivity.
Qed.

Lemma project_on_sphere_outside (touch_x touch_y width height r : R) :
  height <> 0 ->
  let x := (touch_x - width / 2) / height in
  let y := - (touch_y - height / 2) / height in
  r * r / 2 < x ^ 2 + y ^ 2 ->
  project_on_sphere touch_x touch_y width height r
  = Vector3.normalize (Vector3.new x y (r * r / 2 / sqrt (x ^ 2 + y ^ 2))).
Proof.
  intros Hh x y Hd. unfold project_on_sphere.
  rewrite !float_div_ok by exact Hh. cbn [bind]. fold x y.
  rewrite float_leb_false by exact Hd.
  assert (Hp : 0 < x ^ 2 + y ^ 2) by nra.
  rewrite math_sqrt_ok by lra. cbn [bind].
  pose proof (sqrt_lt_R0 _ Hp).
  rewrite float_div_ok by lra. reflexivity.
Qed.

Lemma normalize_positive_z (a b c : R) :
  0 < c ->
  exists p, Vector3.normalize (Vector3.new a b c) = Ok p
    /\ Vector3.length p = Ok 1 /\ 0 < Vector3.z p.
Proof.
  intros Hc.
  assert (Hz : Vector3.is_zero (Vector3.new a b c) = false).
  { destruct (Vector3.is_zero (Vector3.new a b c)) eqn:E; [| reflexivity].
    apply is_zero_components in E. simpl in E. lra. }
  pose proof (is_zero_false_vlen _ Hz) as Hl.
  exists (unit_direction (Vector3.new a b c)).
  split; [apply normalize_ok, Hz |].
  split; [rewrite length_ok, vlen_unit_direction by exact Hl; reflexivity |].
  simpl. apply Rdiv_lt_0_compat; assumption.
Qed.

(** X28: The trackball projection lands on the unit sphere, on the viewer's
    side: for a viewport of non-zero height and a non-zero radius it
    returns, for every touch position, a vector of length exactly 1 with a
    positive z component. *)
Theorem project_on_sphere_unit (touch_x touch_y width height r : R) :
  height <> 0 -> r <> 0 ->
  exists p,
    project_on_sphere touch_x touch_y width height r = Ok p
    /\ Vector3.length p = Ok 1
    /\ 0 < Vector3.z p.
Proof.
  intros Hh Hr.
  set (x := (touch_x - width / 2) / height).
  set (y := - (touch_y - height / 2) / height).
  assert (Hrr : 0 < r * r) by nra.
  destruct (Rle_dec (x ^ 2 + y ^ 2) (r * r / 2)) as [L | G].
  - rewrite project_on_sphere_inside by assumption. fold x y.
    apply normalize_positive_z, sqrt_lt_R0. lra.
  - rewrite project_on_sphere_outside by (try assumption; fold x y; lra). fold x y.
    apply normalize_positive_z.
    assert (Hp : 0 < x ^ 2 + y ^ 2) by lra.
    apply Rdiv_lt_0_compat; [lra | apply sqrt_lt_R0, Hp].
Qed.

(** At the first mouse position of the demo, (384, 432) in a 960 x 540
    viewport, with the default radius. *)
Lemma project_on_sphere_unit_witness :
  exists p,
    project_on_sphere_default 384 432 960 540 = Ok p
    /\ Vector3.length p = Ok 1
    /\ 0 < Vector3.z p.
Proof.
  apply (project_on_sphere_unit 384 432 960 540 0.5); lra.
Defined.

(** X29: two inputs on which the projection raises [ZeroDivisionError]:
    a viewport of height 0 (the first division), and a radius of 0 with the
    touch at the centre of the viewport (the vector handed to [normalize]
    is then the zero vector). *)
Theorem project_on_sphere_raises (touch_x touch_y width height r : R) :
  height = 0 \/ (r = 0 /\ touch_x = width / 2 /\ touch_y = height / 2) ->
  project_on_sphere touch_x touch_y width height r = Raise ZeroDivisionError.
Proof.
  intros [Eh | (Er & Ex & Ey)].
  - subst height. apply project_on_sphere_zero_height.
  - destruct (Req_dec_T height 0) as [Eh | Nh].
    { subst height. apply project_on_sphere_zero_height. }
    subst r touch_x touch_y.
    assert (Hx : (width / 2 - width / 2) / height = 0) by (field; exact Nh).
    assert (Hy : - (height / 2 - height / 2) / height = 0) by (field; exact Nh).
    rewrite project_on_sphere_inside by (try assumption; rewrite Hx, Hy; lra).
    rewrite Hx, Hy.
    replace (0 * 0 - (0 ^ 2 + 0 ^ 2)) with 0 by ring. rewrite sqrt_0.
    apply normalize_zero. unfold vlen; simpl.
    replace (0 * 0 + 0 * 0 + 0 * 0) with 0 by ring. apply sqrt_0.
Qed.

(** At a 960 x 0 viewport, and at the centre of a 960 x 540 viewport with
    radius 0. *)
Lemma project_on_sphere_raises_witness :
  project_on_sphere 384 432 960 0 0.5 = Raise ZeroDivisionError
  /\ project_on_sphere 480 270 960 540 0 = Raise ZeroDivisionError.
Proof.
  split.
  - apply (project_on_sphere_raises 384 432 960 0 0.5). left. reflexivity.
  - apply (project_on_sphere_raises 480 270 960 540 0).
    right. repeat split; lra.
Defined.
